(** * dialed-backend: cache-aside retrieval and normalisation

    A shallow embedding of [app.py] and [email_service.py].

    - JSON values as the Python objects [json.loads] builds, with the Python
      operations the handlers apply to them ([not x], [k in x], [x.get(k)],
      [==], iteration, [sorted]) and the exceptions these raise;
    - the normalisers [extract_green_centers] and [extract_pars];
    - the two cache tables as finite maps, the process environment, the
      upstream provider and the mail transport as inputs of a request;
    - the handlers [get_course_coordinates], [get_course_info] and
      [store_cached_course_poi] in a state-and-exception monad, under the
      [db_error_handler] decorator. The [require_auth] decorator, the
      router and the connection pool stay outside. *)

From Stdlib Require Import ZArith QArith List Bool Sorted Ascii String.
From stdpp Require Import base option list strings gmap.

Local Open Scope Z_scope.
Local Open Scope string_scope.

(** ** Python values *)

#[local] Set Warnings "-register-all".

(** The objects [json.loads] produces. A [dict] is an association list in
    insertion order; a float is the rational it denotes (the [NaN] and
    [Infinity] tokens, which are not JSON, are left out). *)
Inductive json : Type :=
  | JNull
  | JBool (b : bool)
  | JInt (n : Z)
  | JFloat (q : Q)
  | JStr (s : string)
  | JArr (items : list json)
  | JObj (fields : list (string * json)).

(** Exceptions, by the classes the handlers tell apart. [AttributeError],
    [TypeError] and [KeyError] are raised by the interpreter. *)
Inductive pyexn : Type :=
  | AttributeError
  | TypeError
  | KeyError
  | JSONDecodeError
  | Exception (msg : string)
  | RequestException (msg : string)
  | Psycopg2Error (msg : string).

Inductive result (A : Type) : Type :=
  | Ok (a : A)
  | Raise (e : pyexn).
Arguments Ok {A} a.
Arguments Raise {A} e.

#[export] Instance result_ret : MRet result := fun _ a => Ok a.
#[export] Instance result_bind : MBind result := fun _ _ f m =>
  match m with
  | Ok a => f a
  | Raise e => Raise e
  end.

(** [d.get(k)] on the fields of a dict: the first binding of [k]. *)
Fixpoint dict_get (k : string) (d : list (string * json)) : option json :=
  match d with
  | [] => None
  | (k', v) :: d' => if String.eqb k k' then Some v else dict_get k d'
  end.

(** [d[k] = v]: the value is replaced where [k] is bound, and appended
    otherwise. *)
Fixpoint dict_set (k : string) (v : json) (d : list (string * json))
  : list (string * json) :=
  match d with
  | [] => [(k, v)]
  | (k', v') :: d' =>
      if String.eqb k k' then (k', v) :: d' else (k', v') :: dict_set k v d'
  end.

(** [bool(x)] *)
Definition py_truthy (x : json) : bool :=
  match x with
  | JNull => false
  | JBool b => b
  | JInt n => negb (Z.eqb n 0)
  | JFloat q => negb (Qeq_bool q (inject_Z 0))
  | JStr s => negb (String.eqb s EmptyString)
  | JArr l => match l with [] => false | _ => true end
  | JObj d => match d with [] => false | _ => true end
  end.

(** The numeric value of an [int], [float] or [bool]. *)
Definition num_of (x : json) : option Q :=
  match x with
  | JBool b => Some (inject_Z (if b then 1 else 0))
  | JInt n => Some (inject_Z n)
  | JFloat q => Some q
  | _ => None
  end.

(** [x == n] for an int literal [n]. *)
Definition py_eq_int (x : json) (n : Z) : bool :=
  match num_of x with
  | Some q => Qeq_bool q (inject_Z n)
  | None => false
  end.

(** [x == s] for a str [s]. *)
Definition py_eq_str (x : json) (s : string) : bool :=
  match x with
  | JStr t => String.eqb t s
  | _ => false
  end.

(** [x.get(k, dflt)]; only a dict has the method. *)
Definition py_get (x : json) (k : string) (dflt : json) : result json :=
  match x with
  | JObj d => Ok (default dflt (dict_get k d))
  | _ => Raise AttributeError
  end.

(** [k in x] for a str [k]: key of a dict, element of a list, substring of
    a str. *)
Definition py_contains (k : string) (x : json) : result bool :=
  match x with
  | JObj d => Ok (bool_decide (is_Some (dict_get k d)))
  | JArr l => Ok (existsb (fun y => py_eq_str y k) l)
  | JStr s => Ok (bool_decide (is_Some (String.index 0 k s)))
  | _ => Raise TypeError
  end.

(** [for c in x]: the items the loop visits. A dict yields its keys and a
    str its characters. *)
Definition py_iter (x : json) : result (list json) :=
  match x with
  | JArr l => Ok l
  | JObj d => Ok (map (fun kv => JStr (fst kv)) d)
  | JStr s =>
      Ok (map (fun c => JStr (String c EmptyString)) (String.list_ascii_of_string s))
  | _ => Raise TypeError
  end.

(** ** The [holes_data] dictionary *)

(** Keys of a Python dict must be hashable. *)
Definition hashable (k : json) : bool :=
  match k with
  | JArr _ | JObj _ => false
  | _ => true
  end.

(** Equality of dict keys: numbers by value ([1], [1.0] and [True] are one
    key), strings by content. *)
Definition py_key_eq (a b : json) : bool :=
  match num_of a, num_of b with
  | Some x, Some y => Qeq_bool x y
  | None, None =>
      match a, b with
      | JNull, JNull => true
      | JStr s, JStr t => String.eqb s t
      | _, _ => false
      end
  | _, _ => false
  end.

(** [holes_data]: hole number to hole entry, in insertion order. *)
Definition holes_dict : Type := list (json * list (string * json)).

Fixpoint hd_lookup (k : json) (hd : holes_dict) : option (list (string * json)) :=
  match hd with
  | [] => None
  | (k', v) :: hd' => if py_key_eq k k' then Some v else hd_lookup k hd'
  end.

(** [k in holes_data] *)
Definition hd_contains (k : json) (hd : holes_dict) : result bool :=
  if hashable k then Ok (bool_decide (is_Some (hd_lookup k hd)))
  else Raise TypeError.

(** [holes_data[k]] *)
Definition hd_getitem (k : json) (hd : holes_dict) : result (list (string * json)) :=
  if hashable k then
    match hd_lookup k hd with
    | Some v => Ok v
    | None => Raise KeyError
    end
  else Raise TypeError.

(** [holes_data[k][field] = v]: the entry of [k] is updated in place. *)
Fixpoint hd_set_field (k : json) (field : string) (v : json) (hd : holes_dict)
  : holes_dict :=
  match hd with
  | [] => []
  | (k', e) :: hd' =>
      if py_key_eq k k' then (k', dict_set field v e) :: hd'
      else (k', e) :: hd_set_field k field v hd'
  end.

(** ** [sorted] *)

(** [a < b]: numbers among themselves, strings among themselves. *)
Definition py_lt (a b : json) : result bool :=
  match num_of a, num_of b with
  | Some x, Some y => Ok (negb (Qle_bool y x))
  | _, _ =>
      match a, b with
      | JStr s, JStr t => Ok (String.ltb s t)
      | _, _ => Raise TypeError
      end
  end.

(** [x] is placed before the first element that is not smaller than it. *)
Fixpoint py_insert (x : json) (l : list json) : result (list json) :=
  match l with
  | [] => Ok [x]
  | y :: l' =>
      lt ← py_lt y x;
      if lt : bool then (r ← py_insert x l'; Ok (y :: r)) else Ok (x :: y :: l')
  end.

(** [sorted(keys)]: a stable sort that uses [<] only, and raises the
    [TypeError] of the first comparison that is not supported. *)
Fixpoint py_sorted (l : list json) : result (list json) :=
  match l with
  | [] => Ok []
  | x :: l' => s ← py_sorted l'; py_insert x s
  end.

(** ** The normalisers *)

Definition invalid_format : string := "Invalid course data format".

(** One round of the loop of [extract_green_centers]. *)
Definition process_coord (holes_data : holes_dict) (coord : json)
  : result holes_dict :=
  poi ← py_get coord "poi" JNull;
  if negb (py_eq_int poi 1) then Ok holes_data else
  loc ← py_get coord "location" JNull;
  if negb (existsb (py_eq_int loc) [1; 2; 3]) then Ok holes_data else
  hole_number ← py_get coord "hole" JNull;
  location ← py_get coord "location" JNull;
  present ← hd_contains hole_number holes_data;
  let holes_data :=
    if present : bool then holes_data
    else (holes_data ++ [(hole_number, [("holeNumber", hole_number)])])%list in
  _ ← hd_getitem hole_number holes_data;
  latitude ← py_get coord "latitude" JNull;
  longitude ← py_get coord "longitude" JNull;
  let point := JObj [("latitude", latitude); ("longitude", longitude)] in
  if py_eq_int location 1 then
    Ok (hd_set_field hole_number "frontOfGreen" point holes_data)
  else if py_eq_int location 2 then
    Ok (hd_set_field hole_number "centerOfGreen" point holes_data)
  else if py_eq_int location 3 then
    Ok (hd_set_field hole_number "backOfGreen" point holes_data)
  else Ok holes_data.

Fixpoint process_coords (holes_data : holes_dict) (coords : list json)
  : result holes_dict :=
  match coords with
  | [] => Ok holes_data
  | coord :: rest =>
      holes_data' ← process_coord holes_data coord;
      process_coords holes_data' rest
  end.

Fixpoint holes_in_order (holes_data : holes_dict) (keys : list json)
  : result (list json) :=
  match keys with
  | [] => Ok []
  | hole :: rest =>
      e ← hd_getitem hole holes_data;
      es ← holes_in_order holes_data rest;
      Ok (JObj e :: es)
  end.

Definition extract_green_centers (coordinates_data : json) : result json :=
  let invalid := JObj [("error", JStr invalid_format); ("holes", JArr [])] in
  if negb (py_truthy coordinates_data) then Ok invalid else
  has ← py_contains "coordinates" coordinates_data;
  if negb has then Ok invalid else
  coordinates ← py_get coordinates_data "coordinates" (JArr []);
  coords ← py_iter coordinates;
  holes_data ← process_coords [] coords;
  keys ← py_sorted (map fst holes_data);
  holes_list ← holes_in_order holes_data keys;
  courseID ← py_get coordinates_data "courseID" (JStr EmptyString);
  Ok (JObj [("courseID", courseID);
            ("holes", JArr holes_list);
            ("count", JInt (Z.of_nat (length holes_list)))]).

Definition extract_pars (info_data : json) : result json :=
  if negb (py_truthy info_data) then
    Ok (JObj [("error", JStr invalid_format)])
  else
    pars_men ← py_get info_data "parsMen" (JArr []);
    pars_women ← py_get info_data "parsWomen" (JArr []);
    courseID ← py_get info_data "courseID" (JStr EmptyString);
    Ok (JObj [("courseID", courseID);
              ("parsMen", pars_men);
              ("parsWomen", pars_women)]).

(** ** The cache tables, the environment and the outside world *)

(** A row of [course_poi_cache] or [course_info_cache]: [value] is the
    Python object psycopg2 hands back for the column. *)
Record row : Type := Row { value : json; inserted_at : Z }.

Inductive table : Type := course_poi_cache | course_info_cache.

Record database : Type := Database {
  poi_rows : gmap string row;
  info_rows : gmap string row
}.

Definition rows (t : table) (db : database) : gmap string row :=
  match t with
  | course_poi_cache => poi_rows db
  | course_info_cache => info_rows db
  end.

Definition set_rows (t : table) (m : gmap string row) (db : database) : database :=
  match t with
  | course_poi_cache => {| poi_rows := m; info_rows := info_rows db |}
  | course_info_cache => {| poi_rows := poi_rows db; info_rows := m |}
  end.

(** What [requests.get] does for one call: a response, whose [.json()] gives
    a value or raises, or an exception. *)
Inductive upstream_result : Type :=
  | HttpResponse (status_code : Z) (text : string) (json_body : result json)
  | RequestFailed (e : pyexn).

Inductive db_op : Type := Connect | Select | Insert.

(** The message [send_course_email] composes. *)
Record email : Type := Email {
  sender : string;
  recipient : string;
  subject : string;
  body_text : string;
  quota_note : option json;
  filename : string;
  attachment : json
}.

(** What a request does to the outside, in order. *)
Inductive event : Type :=
  | Fetched (url authorization : string)
  | Wrote (t : table) (key : string) (written : json)
  | Notified (course_id : string) (course_name : json) (data_type : string)
      (delivered : option email).

(** What a request finds around it: the process environment, the course
    list loaded at start-up, the clock of the database, the answer of the
    provider, the faults of the database and of the mail transport, and the
    writes that other requests commit while this one waits for the
    provider (the identity when it runs alone). *)
Record world : Type := World {
  environ : gmap string string;
  COURSES : list json;
  now : Z;
  upstream : upstream_result;
  db_fault : db_op -> option pyexn;
  smtp_fault : option pyexn;
  concurrent : database -> database
}.

(** The libraries and the schema the repository relies on and does not
    contain: [json.loads] ([None] for a [JSONDecodeError]), [json.dumps],
    the text of the interpreter's own exceptions, the object the [value]
    column gives back for a parameter written to it, and the text the [key]
    column takes for a parameter. *)
Record platform : Type := Platform {
  json_loads : string -> option json;
  json_dumps : json -> string;
  interpreter_message : pyexn -> string;
  stored_as : json -> json;
  adapt_key : json -> result string
}.

Definition getenv (w : world) (name : string) : option string :=
  environ w !! name.

(** [bool(os.getenv(..))]: unset and empty are falsy. *)
Definition configured (v : option string) : bool :=
  match v with
  | Some s => negb (String.eqb s EmptyString)
  | None => false
  end.

(** The text an f-string gives for the result of [os.getenv]. *)
Definition format_env (v : option string) : string := default "None" v.

(** ** Handlers: state and exceptions *)

Definition state : Type := database * list event.

Definition M (A : Type) : Type := state -> result A * state.

#[export] Instance M_ret : MRet M := fun _ a s => (Ok a, s).
#[export] Instance M_bind : MBind M := fun _ _ f m s =>
  match m s with
  | (Ok a, s') => f a s'
  | (Raise e, s') => (Raise e, s')
  end.

Definition raise {A} (e : pyexn) : M A := fun s => (Raise e, s).

Definition lift {A} (r : result A) : M A := fun s => (r, s).

Definition get_db : M database := fun s => (Ok (fst s), s).

Definition put_db (db : database) : M unit := fun s => (Ok tt, (db, snd s)).

Definition emit (ev : event) : M unit :=
  fun s => (Ok tt, (fst s, (snd s ++ [ev])%list)).

(** [try: m except Exception as e: h e] *)
Definition try_except {A} (m : M A) (h : pyexn -> M A) : M A := fun s =>
  match m s with
  | (Ok a, s') => (Ok a, s')
  | (Raise e, s') => h e s'
  end.

Record response : Type := Response { body : json; status : Z }.

Definition jsonify (j : json) : response := {| body := j; status := 200 |}.
Definition jsonify_status (j : json) (code : Z) : response :=
  {| body := j; status := code |}.

(** ** [email_service.py] *)

(** ASCII white space, as [str.split] without argument sees it. *)
Definition is_space (c : ascii) : bool :=
  let n := nat_of_ascii c in
  ((9 <=? n) && (n <=? 13) || (28 <=? n) && (n <=? 32))%nat.

Fixpoint filter_chars (keep : ascii -> bool) (s : string) : string :=
  match s with
  | EmptyString => EmptyString
  | String c s' =>
      if keep c then String c (filter_chars keep s') else filter_chars keep s'
  end.

Fixpoint map_chars (f : ascii -> ascii) (s : string) : string :=
  match s with
  | EmptyString => EmptyString
  | String c s' => String (f c) (map_chars f s')
  end.

(** [''.join(s.split())] *)
Definition remove_whitespace (s : string) : string :=
  filter_chars (fun c => negb (is_space c)) s.

(** [s.encode('ascii', 'ignore').decode('ascii')] on the UTF-8 text of [s]. *)
Definition ascii_only (s : string) : string :=
  filter_chars (fun c => (nat_of_ascii c <? 128)%nat) s.

(** [s.lower()], for the ASCII letters. *)
Definition lower (s : string) : string :=
  map_chars (fun c =>
    let n := nat_of_ascii c in
    if ((65 <=? n) && (n <=? 90))%nat then ascii_of_nat (n + 32) else c) s.

(** [s.replace(' ', '_')] *)
Definition underscores (s : string) : string :=
  map_chars (fun c => if Ascii.eqb c " "%char then "_"%char else c) s.

(** The body of the [try] block up to the connection to the mail server.
    [course_name.replace] is the one call that needs a str. *)
Definition compose_email (gmail_user recipient_email course_id : string)
    (course_name course_data : json) (data_type : string)
    (api_requests_left : json) : result email :=
  match course_name with
  | JStr name =>
      Ok {| sender := gmail_user;
            recipient := recipient_email;
            subject := ascii_only ("Golf Course " +:+ data_type +:+ ": " +:+ name);
            body_text := "Attached is the " +:+ lower data_type +:+ " data for "
                         +:+ name +:+ " (ID: " +:+ course_id +:+ ").";
            quota_note := if py_truthy api_requests_left
                          then Some api_requests_left else None;
            filename := ascii_only (course_id +:+ "_" +:+ underscores name)
                        +:+ "_" +:+ lower data_type +:+ ".json";
            attachment := course_data |}
  | _ => Raise AttributeError
  end.

(** [smtplib.SMTP_SSL(..)], [login] and [send_message]. *)
Definition smtp_send (w : world) (msg : email) : result email :=
  match smtp_fault w with
  | Some e => Raise e
  | None => Ok msg
  end.

(** [send_course_email]: [Some msg] for [True] with the message delivered,
    [None] for [False]. *)
Definition send_course_email (w : world) (course_id : string)
    (course_name course_data : json) (data_type : string)
    (api_requests_left : json) : result (option email) :=
  let gmail_user := getenv w "GMAIL_USER" in
  let gmail_password := getenv w "GMAIL_APP_PASSWORD" in
  let gmail_password :=
    if configured gmail_password then remove_whitespace <$> gmail_password
    else gmail_password in
  let recipient_email := getenv w "RECIPIENT_EMAIL" in
  if negb (configured gmail_user) || negb (configured gmail_password)
     || negb (configured recipient_email)
  then Ok None
  else
    match
      msg ← compose_email (format_env gmail_user) (format_env recipient_email)
              course_id course_name course_data data_type api_requests_left;
      smtp_send w msg
    with
    | Ok msg => Ok (Some msg)
    | Raise _ => Ok None
    end.

(** ** [app.py] *)

Section Handlers.

Variable pf : platform.

(** [str(e)] *)
Definition exn_str (e : pyexn) : string :=
  match e with
  | Exception msg | RequestException msg | Psycopg2Error msg => msg
  | _ => interpreter_message pf e
  end.

(** The answer [db_error_handler] gives for the exception [e]. *)
Definition error_response (e : pyexn) : response :=
  match e with
  | Psycopg2Error _ =>
      jsonify_status
        (JObj [("error", JStr "Database error"); ("details", JStr (exn_str e))]) 500
  | _ =>
      jsonify_status
        (JObj [("error", JStr "Server error"); ("details", JStr (exn_str e))]) 500
  end.

(** The [db_error_handler] decorator. *)
Definition db_error_handler (f : M response) : M response :=
  try_except f (fun e => mret (error_response e)).

Definition db_call (w : world) (op : db_op) : M unit :=
  match db_fault w op with
  | Some e => raise e
  | None => mret tt
  end.

Definition get_db_connection (w : world) : M unit := db_call w Connect.

(** [SELECT value FROM t WHERE key = %s], then [fetchone]. *)
Definition select_value (w : world) (t : table) (key : string) : M (option json) :=
  _ ← db_call w Select;
  db ← get_db;
  mret (value <$> rows t db !! key).

(** [INSERT INTO t (key, value) VALUES (%s, %s) ON CONFLICT (key) DO UPDATE
    SET ..]: [on_conflict] gives the row that replaces the one in conflict.
    A new row takes the time of the insertion. *)
Definition insert_on_conflict (w : world) (t : table) (key : string) (param : json)
    (on_conflict : row -> row) : M unit :=
  _ ← db_call w Insert;
  db ← get_db;
  let r := match rows t db !! key with
           | Some old => on_conflict old
           | None => {| value := stored_as pf param; inserted_at := now w |}
           end in
  _ ← put_db (set_rows t (<[key := r]> (rows t db)) db);
  emit (Wrote t key param).

(** [DO UPDATE SET value = %s, inserted_at = NOW()] *)
Definition set_value_and_time (w : world) (param : json) (old : row) : row :=
  {| value := stored_as pf param; inserted_at := now w |}.

(** [DO UPDATE SET value = %s] *)
Definition set_value (param : json) (old : row) : row :=
  {| value := stored_as pf param; inserted_at := inserted_at old |}.

(** [requests.get(url, headers=headers)]; the writes of other requests land
    while this one waits. *)
Definition requests_get (w : world) (url authorization : string)
  : M (Z * string * result json) :=
  _ ← emit (Fetched url authorization);
  db ← get_db;
  _ ← put_db (concurrent w db);
  match upstream w with
  | HttpResponse code text j => mret (code, text, j)
  | RequestFailed e => raise e
  end.

(** The scan of [COURSES] for the display name. *)
Fixpoint lookup_course_name (courses : list json) (course_id : string) : result json :=
  match courses with
  | [] => Ok (JStr "Unknown Course")
  | course :: rest =>
      cid ← py_get course "courseId" JNull;
      if py_eq_str cid course_id then py_get course "courseName" (JStr "Unknown Course")
      else lookup_course_name rest course_id
  end.

Definition notify (w : world) (course_id : string) (course_name course_data : json)
    (data_type : string) (api_requests_left : json) : M unit :=
  sent ← lift (send_course_email w course_id course_name course_data data_type
                 api_requests_left);
  emit (Notified course_id course_name data_type sent).

(** The decoding of a cached value, under [try .. except json.JSONDecodeError]. *)
Definition decode_cached (v : json) : result json :=
  match v with
  | JStr s =>
      match json_loads pf s with
      | Some j => Ok j
      | None => Raise JSONDecodeError
      end
  | _ => Ok v
  end.

Definition invalid_cache {A} (e : pyexn) : M A :=
  match e with
  | JSONDecodeError => raise (Exception "Invalid JSON data in cache")
  | _ => raise e
  end.

Definition upstream_failed (code : Z) (text : string) : response :=
  jsonify_status
    (JObj [("error", JStr "Golf API request failed");
           ("status_code", JInt code);
           ("details", JStr text)]) code.

Definition fetch_failed (e : pyexn) : M response :=
  match e with
  | RequestException _ =>
      mret (jsonify_status
        (JObj [("error", JStr "Failed to fetch from Golf API");
               ("details", JStr (exn_str e))]) 500)
  | _ => raise e
  end.

Definition get_course_coordinates (w : world) (course_id : string) : M response :=
  let cache_key := "coordinates_" +:+ course_id in
  _ ← get_db_connection w;
  row ← select_value w course_poi_cache cache_key;
  match row with
  | Some v =>
      try_except
        (coordinates_data ← lift (decode_cached v);
         processed_data ← lift (extract_green_centers coordinates_data);
         mret (jsonify processed_data))
        invalid_cache
  | None =>
      let golf_api_url := "https://www.golfapi.io/api/v2.3/coordinates/" +:+ course_id in
      let golf_api_token := getenv w "GOLF_API_TOKEN" in
      if negb (configured golf_api_token) then
        mret (jsonify_status (JObj [("error", JStr "Golf API token not configured")]) 500)
      else
        try_except
          (let authorization := "Bearer " +:+ format_env golf_api_token in
           '(code, text, json_body) ← requests_get w golf_api_url authorization;
           if Z.eqb code 200 then
             coordinates_data ← lift json_body;
             api_requests_left ← lift (py_get coordinates_data "apiRequestsLeft" JNull);
             let value_json := json_dumps pf coordinates_data in
             _ ← insert_on_conflict w course_poi_cache cache_key (JStr value_json)
                   (set_value (JStr value_json));
             course_name ← lift (lookup_course_name (COURSES w) course_id);
             _ ← notify w course_id course_name coordinates_data "POI" api_requests_left;
             processed_data ← lift (extract_green_centers coordinates_data);
             mret (jsonify processed_data)
           else mret (upstream_failed code text))
          fetch_failed
  end.

Definition get_course_info (w : world) (course_id : string) : M response :=
  let cache_key := "info_" +:+ course_id in
  _ ← get_db_connection w;
  row ← select_value w course_info_cache cache_key;
  match row with
  | Some v =>
      try_except
        (info_data ← lift (decode_cached v);
         processed_data ← lift (extract_pars info_data);
         mret (jsonify processed_data))
        invalid_cache
  | None =>
      let golf_api_url := "https://www.golfapi.io/api/v2.3/courses/" +:+ course_id in
      let golf_api_token := getenv w "GOLF_API_TOKEN" in
      try_except
        (let authorization := "Bearer " +:+ format_env golf_api_token in
         '(code, text, json_body) ← requests_get w golf_api_url authorization;
         if Z.eqb code 200 then
           info_data ← lift json_body;
           api_requests_left ← lift (py_get info_data "apiRequestsLeft" JNull);
           let value_json := json_dumps pf info_data in
           _ ← insert_on_conflict w course_info_cache cache_key (JStr value_json)
                 (set_value (JStr value_json));
           course_name ← lift (lookup_course_name (COURSES w) course_id);
           _ ← notify w course_id course_name info_data "Info" api_requests_left;
           processed_data ← lift (extract_pars info_data);
           mret (jsonify processed_data)
         else mret (upstream_failed code text))
        fetch_failed
  end.

(** [data[k]] for a str [k]: only a dict can be indexed by a str. *)
Definition py_getitem (x : json) (k : string) : result json :=
  match x with
  | JObj d =>
      match dict_get k d with
      | Some v => Ok v
      | None => Raise KeyError
      end
  | _ => Raise TypeError
  end.

(** [POST /cache], on the body [request.get_json()] returned. *)
Definition store_cached_course_poi (w : world) (data : json) : M response :=
  let missing :=
    mret (jsonify_status (JObj [("error", JStr "Missing key or value")]) 400) in
  if negb (py_truthy data) then missing else
  has_key ← lift (py_contains "key" data);
  if negb has_key then missing else
  has_value ← lift (py_contains "value" data);
  if negb has_value then missing else
  key ← lift (py_getitem data "key");
  value ← lift (py_getitem data "value");
  let value_json :=
    match value with
    | JObj _ | JArr _ => JStr (json_dumps pf value)
    | _ => value
    end in
  _ ← get_db_connection w;
  key_text ← lift (adapt_key pf key);
  _ ← insert_on_conflict w course_poi_cache key_text value_json
        (set_value_and_time w value_json);
  mret (jsonify_status (JObj [("success", JBool true); ("key", key)]) 201).

(** ** The resolver *)

Inductive kind : Type := coordinates | info.

Definition cache_table (k : kind) : table :=
  match k with
  | coordinates => course_poi_cache
  | info => course_info_cache
  end.

Definition cache_key (k : kind) (course_id : string) : string :=
  match k with
  | coordinates => "coordinates_" +:+ course_id
  | info => "info_" +:+ course_id
  end.

Definition normalize (k : kind) (raw : json) : result json :=
  match k with
  | coordinates => extract_green_centers raw
  | info => extract_pars raw
  end.

(** A request for [course_id], as the route serves it: the handler of the
    kind under [db_error_handler]. *)
Definition resolve (w : world) (k : kind) (course_id : string) : M response :=
  db_error_handler
    match k with
    | coordinates => get_course_coordinates w course_id
    | info => get_course_info w course_id
    end.

End Handlers.

(** ** The routes and their decorators *)

(** [s.split(sep)] for a separator that is not empty: [cur] is the piece
    being read, and [skip] counts the characters of a separator just found
    that are still to be passed. *)
Fixpoint split_from (sep : string) (skip : nat) (cur s : string) : list string :=
  match s with
  | EmptyString => [cur]
  | String c s' =>
      match skip with
      | S k => split_from sep k cur s'
      | O =>
          if String.prefix sep s
          then cur :: split_from sep (String.length sep - 1) EmptyString s'
          else split_from sep 0 (cur +:+ String c EmptyString) s'
      end
  end.

Definition py_split (sep s : string) : list string :=
  split_from sep 0 EmptyString s.

Definition unauthorized (msg : string) : response :=
  jsonify_status (JObj [("error", JStr msg)]) 401.

(** The [require_auth] decorator around the view [f], for a request whose
    [Authorization] header is [authorization]. An index out of range would
    be an exception that no handler tells apart. *)
Definition require_auth (API_SECRET : string) (authorization : option string)
    (f : M response) : M response :=
  match authorization with
  | None => mret (unauthorized "Missing or invalid authorization header")
  | Some auth_header =>
      if String.eqb auth_header EmptyString
         || negb (String.prefix "Bearer " auth_header)
      then mret (unauthorized "Missing or invalid authorization header")
      else
        match nth_error (py_split "Bearer " auth_header) 1 with
        | None => raise (Exception "list index out of range")
        | Some token =>
            if negb (String.eqb token API_SECRET)
            then mret (unauthorized "Invalid authorization token")
            else f
        end
  end.

(** [GET /courses] *)
Definition get_courses (w : world) : M response :=
  mret (jsonify (JArr (COURSES w))).

(** [GET /] *)
Definition index : M response :=
  mret (jsonify (JObj [("message", JStr "Welcome to the Golf Course API");
                       ("status", JStr "operational")])).

Section Routes.

Variable pf : platform.

(** [GET /cache/<key>] *)
Definition get_cached_course_poi (w : world) (key : string) : M response :=
  _ ← get_db_connection w;
  row ← select_value w course_poi_cache key;
  match row with
  | Some v =>
      try_except
        (value ← lift (decode_cached pf v);
         mret (jsonify (JObj [("key", JStr key); ("value", value)])))
        (fun e =>
           match e with
           | JSONDecodeError =>
               mret (jsonify (JObj [("key", JStr key); ("value", v)]))
           | _ => raise e
           end)
  | None => mret (jsonify_status (JObj [("error", JStr "Not found")]) 404)
  end.

(** The routes as the application serves them: [require_auth] outside,
    [db_error_handler] inside. *)
Definition route_cache_get (API_SECRET : string) (authorization : option string)
    (w : world) (key : string) : M response :=
  require_auth API_SECRET authorization
    (db_error_handler pf (get_cached_course_poi w key)).

Definition route_cache_post (API_SECRET : string) (authorization : option string)
    (w : world) (data : json) : M response :=
  require_auth API_SECRET authorization
    (db_error_handler pf (store_cached_course_poi pf w data)).

Definition route_resolve (API_SECRET : string) (authorization : option string)
    (w : world) (k : kind) (course_id : string) : M response :=
  require_auth API_SECRET authorization (resolve pf w k course_id).

Definition route_courses (API_SECRET : string) (authorization : option string)
    (w : world) : M response :=
  require_auth API_SECRET authorization (get_courses w).

End Routes.

(** ** The connection pool *)

Module Pool.

(** A psycopg2 connection: [conn_id] tells the connections of a process
    apart. *)
Record connection : Type := Connection {
  conn_id : nat;
  closed : bool;
  autocommit : bool
}.

(** The global [conn_pool], and the number of calls of [psycopg2.connect]
    so far. *)
Record pool : Type := PoolState {
  conn_pool : option connection;
  connects : nat
}.

(** [psycopg2.connect(..)], which raises [fault] when there is one. *)
Definition connect (fault : option pyexn) (st : pool) : result connection * pool :=
  let st' := {| conn_pool := conn_pool st; connects := S (connects st) |} in
  match fault with
  | Some e => (Raise e, st')
  | None =>
      (Ok {| conn_id := connects st; closed := false; autocommit := false |}, st')
  end.

Definition get_db_connection (fault : option pyexn) (st : pool)
  : result connection * pool :=
  let reconnect :=
    match connect fault st with
    | (Ok c, st') =>
        let c' := {| conn_id := conn_id c; closed := closed c; autocommit := true |} in
        (Ok c', {| conn_pool := Some c'; connects := connects st' |})
    | (Raise e, st') => (Raise e, st')
    end in
  match conn_pool st with
  | None => reconnect
  | Some c => if closed c then reconnect else (Ok c, st)
  end.

(** The teardown of the application context. *)
Definition close_db_connection (st : pool) : pool :=
  match conn_pool st with
  | Some c =>
      if negb (closed c) then {| conn_pool := None; connects := connects st |}
      else st
  | None => st
  end.

End Pool.

(** ** Vocabulary of the statements *)

(** The field [k] of a coordinate entry, [None] when it is absent. *)
Definition field (k : string) (c : json) : json :=
  match c with
  | JObj d => default JNull (dict_get k d)
  | _ => JNull
  end.

Definition is_object (c : json) : bool :=
  match c with
  | JObj _ => true
  | _ => false
  end.

Definition is_int (x : json) : bool :=
  match x with
  | JInt _ => true
  | _ => false
  end.

Definition has_field (k : string) (x : json) : bool :=
  match x with
  | JObj d => bool_decide (is_Some (dict_get k d))
  | _ => false
  end.

(** An entry of a green: [poi == 1] and [location] in [{1, 2, 3}]. *)
Definition is_green (c : json) : bool :=
  py_eq_int (field "poi" c) 1 && existsb (py_eq_int (field "location" c)) [1; 2; 3].

(** An item of the [coordinates] list as the provider sends it: an object,
    with an integer [hole] when it is an entry of a green. *)
Definition coordinate_item (c : json) : bool :=
  is_object c && (negb (is_green c) || is_int (field "hole" c)).

(** The entry of a green at hole [n] and location [l]. *)
Definition green_at (n l : Z) (c : json) : bool :=
  is_green c && py_eq_int (field "hole" c) n && py_eq_int (field "location" c) l.

Definition point_of (c : json) : json :=
  JObj [("latitude", field "latitude" c); ("longitude", field "longitude" c)].

(** The point of the last entry of [cs] for hole [n] and location [l]. *)
Definition last_point (n l : Z) (cs : list json) : option json :=
  point_of <$> last (List.filter (green_at n l) cs).

(** The field of a hole entry that location [l] fills. *)
Definition green_field (l : Z) : string :=
  if Z.eqb l 1 then "frontOfGreen"
  else if Z.eqb l 2 then "centerOfGreen"
  else "backOfGreen".

(** [holes_data] after the loop has gone through [cs]: its keys are the
    hole numbers of the greens of [cs], each once, and the entry of a hole
    has its number and the last point of each location. *)
Definition holes_inv (cs : list json) (hd : holes_dict) : Prop :=
  (exists ns : list Z,
     map fst hd = map JInt ns /\ NoDup ns /\
     forall n, In n ns <->
       exists c, In c cs /\ is_green c = true /\ py_eq_int (field "hole" c) n = true)
  /\ forall n e, hd_lookup (JInt n) hd = Some e ->
       dict_get "holeNumber" e = Some (JInt n) /\
       forall l, In l [1; 2; 3] -> dict_get (green_field l) e = last_point n l cs.

(** [sep in s] *)
Fixpoint occurs (sep s : string) : bool :=
  String.prefix sep s
  || match s with
     | EmptyString => false
     | String _ s' => occurs sep s'
     end.

(** No separator starts inside [h] when [h] is followed by [r]. *)
Definition clean (sep h r : string) : Prop :=
  forall a b, h = a +:+ b -> b <> EmptyString -> String.prefix sep (b +:+ r) = false.

(** The label of the kind in the notification. *)
Definition data_type_of (k : kind) : string :=
  match k with
  | coordinates => "POI"
  | info => "Info"
  end.

(** The row the insertion of the resolver leaves under [key] in the rows
    [m], for the parameter [param] at time [t]. *)
Definition resolver_row (pf : platform) (param : json) (t : Z) (m : gmap string row)
    (key : string) : row :=
  {| value := stored_as pf param;
     inserted_at := match m !! key with
                    | Some old => inserted_at old
                    | None => t
                    end |}.

(** The other cache table. *)
Definition other_table (t : table) : table :=
  match t with
  | course_poi_cache => course_info_cache
  | course_info_cache => course_poi_cache
  end.

(** The value [GET /cache/<key>] shows for the stored object [v]. *)
Definition shown_value (pf : platform) (v : json) : json :=
  match v with
  | JStr s => default v (json_loads pf s)
  | _ => v
  end.

(** The parameter [POST /cache] writes for the value [v]. *)
Definition cache_param (pf : platform) (v : json) : json :=
  match v with
  | JObj _ | JArr _ => JStr (json_dumps pf v)
  | _ => v
  end.

(** A [dict] or a [list]. *)
Definition is_container (v : json) : bool :=
  match v with
  | JObj _ | JArr _ => true
  | _ => false
  end.

(** All the characters of [s] are ASCII. *)
Definition seven_bit (s : string) : bool :=
  forallb (fun c => (nat_of_ascii c <? 128)%nat) (String.list_ascii_of_string s).


(** The fields a hole entry can have. *)
Definition hole_fields : list string :=
  ["holeNumber"; "frontOfGreen"; "centerOfGreen"; "backOfGreen"].

(** A hole entry: it has its number, and no field besides [hole_fields]. *)
Definition hole_entry (e : list (string * json)) : Prop :=
  is_Some (dict_get "holeNumber" e)
  /\ forall k, is_Some (dict_get k e) -> In k hole_fields.

(** [None] (the hole of an entry without [hole]) or an int. *)
Definition null_or_int (x : json) : bool :=
  match x with
  | JNull | JInt _ => true
  | _ => false
  end.

(** The answer to a request served from the cached value [v]. *)
Definition cached_response (pf : platform) (k : kind) (v : json) : response :=
  match raw ← decode_cached pf v; normalize k raw with
  | Ok n => jsonify n
  | Raise JSONDecodeError =>
      error_response pf (Exception "Invalid JSON data in cache")
  | Raise e => error_response pf e
  end.

Definition set_env (name : string) (v : option string) (env : gmap string string)
  : gmap string string :=
  match v with
  | Some x => <[name := x]> env
  | None => delete name env
  end.

(** The world [w] with another value of [GOLF_API_TOKEN]. *)
Definition with_token (token : option string) (w : world) : world :=
  {| environ := set_env "GOLF_API_TOKEN" token (environ w);
     COURSES := COURSES w; now := now w; upstream := upstream w;
     db_fault := db_fault w; smtp_fault := smtp_fault w;
     concurrent := concurrent w |}.

(** The world [w] with another mail configuration and another behaviour of
    the mail transport. *)
Definition with_mail (user password recipient : option string)
    (fault : option pyexn) (w : world) : world :=
  {| environ := set_env "GMAIL_USER" user
                  (set_env "GMAIL_APP_PASSWORD" password
                     (set_env "RECIPIENT_EMAIL" recipient (environ w)));
     COURSES := COURSES w; now := now w; upstream := upstream w;
     db_fault := db_fault w; smtp_fault := fault;
     concurrent := concurrent w |}.

(** ** Sample data *)

Definition empty_db : database := {| poi_rows := ∅; info_rows := ∅ |}.

(** The payload of the example scenario of the specification. *)
Definition sample_payload : json :=
  JObj [("courseID", JStr "X1");
        ("coordinates",
         JArr [JObj [("hole", JInt 1); ("poi", JInt 1); ("location", JInt 2);
                     ("latitude", JFloat (10 # 1)); ("longitude", JFloat (20 # 1))]]);
        ("apiRequestsLeft", JStr "42")].

Definition quiet_world (env : gmap string string) (up : upstream_result) : world :=
  {| environ := env; COURSES := []; now := 2; upstream := up;
     db_fault := fun _ => None; smtp_fault := None;
     concurrent := fun db => db |}.

(** A platform for the sample: the [value] and [key] columns are of type
    text, and the codec is right on [sample_payload]. *)
Definition sample_platform : platform :=
  {| json_loads := fun _ => Some sample_payload;
     json_dumps := fun _ => "sample_payload";
     interpreter_message := fun _ => "error";
     stored_as := fun p => p;
     adapt_key := fun k => match k with
                           | JStr s => Ok s
                           | _ => Raise (Psycopg2Error "can't adapt type")
                           end |}.

(** Two requests for the coordinates of X1 miss together; the other one
    commits its row at time 1, while this one, whose insertion runs at time
    2, still waits for the provider. *)
Definition race_world : world :=
  {| environ := {[ "GOLF_API_TOKEN" := "secret" ]};
     COURSES := []; now := 2;
     upstream := HttpResponse 200 "sample_payload" (Ok sample_payload);
     db_fault := fun _ => None; smtp_fault := None;
     concurrent := fun db =>
       set_rows course_poi_cache
         (<["coordinates_X1" := Row (JStr "other") 1]> (poi_rows db)) db |}.

(** Greens out of order, with a second front for hole 2 and a bunker. *)
Definition sample_greens : list json :=
  [JObj [("hole", JInt 2); ("poi", JInt 1); ("location", JInt 1);
         ("latitude", JFloat (1 # 2)); ("longitude", JFloat (3 # 2))];
   JObj [("hole", JInt 1); ("poi", JInt 1); ("location", JInt 3);
         ("latitude", JInt 7); ("longitude", JInt 8)];
   JObj [("hole", JInt 1); ("poi", JInt 4); ("location", JInt 2);
         ("latitude", JInt 0); ("longitude", JInt 0)];
   JObj [("hole", JInt 2); ("poi", JInt 1); ("location", JInt 1);
         ("latitude", JInt 5); ("longitude", JInt 6)]].

(** A platform like [sample_platform] whose codec is right on [payload]. *)
Definition platform_for (payload : json) : platform :=
  {| json_loads := fun _ => Some payload;
     json_dumps := fun _ => "payload";
     interpreter_message := fun _ => "error";
     stored_as := fun p => p;
     adapt_key := fun k => match k with
                           | JStr s => Ok s
                           | _ => Raise (Psycopg2Error "can't adapt type")
                           end |}.

(** The answer of [extract_green_centers] to a payload it does not accept. *)
Definition invalid_coordinates : json :=
  JObj [("error", JStr invalid_format); ("holes", JArr [])].

(** ** Tactics *)

(** The evaluation of a handler down to what it branches on. *)
Ltac run :=
  cbv [resolve db_error_handler get_course_coordinates get_course_info
       get_db_connection select_value db_call requests_get insert_on_conflict
       try_except invalid_cache fetch_failed
       mbind M_bind mret M_ret lift raise emit get_db put_db fst snd
       cache_table cache_key rows set_rows].

(** One case analysis on what a handler branches on next. *)
Ltac branch :=
  match goal with
  | |- context [match ?x with _ => _ end] =>
      lazymatch type of x with
      | option pyexn => destruct x
      | option row => destruct x
      | option json => destruct x
      | bool => destruct x
      | upstream_result => destruct x
      | result _ => destruct x
      | pyexn => destruct x
      end
  end.

(** ** The normalisers: missing fields *)

(** C7. A payload without a [coordinates] field, the empty object among
    them, gives the value [{error, holes: []}]; nothing is raised. *)
Theorem extract_green_centers_without_coordinates (d : list (string * json)) :
  dict_get "coordinates" d = None ->
  extract_green_centers (JObj d)
  = Ok (JObj [("error", JStr invalid_format); ("holes", JArr [])]).
Proof.
  intros Hd. unfold extract_green_centers.
  destruct d as [|kv d']; [reflexivity|].
  cbn [py_truthy negb py_contains mbind result_bind].
  rewrite Hd. reflexivity.
Qed.

Lemma extract_green_centers_without_coordinates_witness :
  dict_get "coordinates" [] = None /\
  extract_green_centers (JObj [])
  = Ok (JObj [("error", JStr invalid_format); ("holes", JArr [])]).
Proof.
  split; [reflexivity|].
  apply (extract_green_centers_without_coordinates []). reflexivity.
Defined.

(** C4, as the code has it. [None] and the empty object are both falsy and
    give [{error}]; an object that is not empty gives the three fields,
    each with its default where it is absent. *)
Theorem extract_pars_defaults :
  extract_pars JNull = Ok (JObj [("error", JStr invalid_format)]) /\
  extract_pars (JObj []) = Ok (JObj [("error", JStr invalid_format)]) /\
  forall d : list (string * json), d <> [] ->
    extract_pars (JObj d)
    = Ok (JObj [("courseID", default (JStr EmptyString) (dict_get "courseID" d));
                ("parsMen", default (JArr []) (dict_get "parsMen" d));
                ("parsWomen", default (JArr []) (dict_get "parsWomen" d))]).
Proof.
  split; [reflexivity|]. split; [reflexivity|].
  intros d Hd. destruct d as [|kv d']; [congruence|]. reflexivity.
Qed.

Lemma extract_pars_defaults_witness :
  [("name", JStr "Pebble")] <> [] /\
  extract_pars (JObj [("name", JStr "Pebble")])
  = Ok (JObj [("courseID", JStr EmptyString);
              ("parsMen", JArr []);
              ("parsWomen", JArr [])]).
Proof.
  split; [discriminate|].
  apply (proj2 (proj2 extract_pars_defaults) [("name", JStr "Pebble")]).
  discriminate.
Defined.

(** C4, as the claim states it, fails at the empty object: the answer is
    [{error}], not the three defaults. *)
Lemma extract_pars_empty_object :
  ~ ((exists r, extract_pars JNull = Ok r /\ has_field "error" r = true) /\
     extract_pars (JObj [])
     = Ok (JObj [("courseID", JStr EmptyString);
                 ("parsMen", JArr []);
                 ("parsWomen", JArr [])])).
Proof. intros [_ H]. discriminate H. Qed.

(** ** The normalisers: no green in the payload *)

Lemma process_coord_skip (hd : holes_dict) (c : json) :
  is_object c = true -> is_green c = false -> process_coord hd c = Ok hd.
Proof.
  destruct c as [| | | | | |d]; try discriminate. intros _.
  unfold is_green, process_coord, field. cbn [py_get mbind result_bind].
  destruct (py_eq_int (default JNull (dict_get "poi" d)) 1); [|reflexivity].
  cbn [andb negb]. intros ->. reflexivity.
Qed.

Lemma process_coords_skip (hd : holes_dict) (cs : list json) :
  Forall (fun c => is_object c = true /\ is_green c = false) cs ->
  process_coords hd cs = Ok hd.
Proof.
  induction 1 as [|c cs [Hobj Hgreen] _ IH]; [reflexivity|].
  cbn [process_coords]. rewrite process_coord_skip by assumption. exact IH.
Qed.

(** C9. With a [coordinates] list that is empty, or whose entries all fail
    the filter, the answer is [{courseID, holes: [], count: 0}]; and an
    answer with an [error] field comes only from a payload that is falsy
    or has no [coordinates] key. *)
Theorem extract_green_centers_no_green :
  (forall (d : list (string * json)) (cs : list json),
     dict_get "coordinates" d = Some (JArr cs) ->
     Forall (fun c => is_object c = true /\ is_green c = false) cs ->
     extract_green_centers (JObj d)
     = Ok (JObj [("courseID", default (JStr EmptyString) (dict_get "courseID" d));
                 ("holes", JArr []);
                 ("count", JInt 0)])) /\
  (forall j r : json,
     extract_green_centers j = Ok r ->
     has_field "error" r = true ->
     py_truthy j = false \/ py_contains "coordinates" j = Ok false).
Proof.
  split.
  - intros d cs Hd Hcs. unfold extract_green_centers.
    destruct d as [|kv d']; [discriminate|].
    cbn [py_truthy negb py_contains py_get mbind result_bind].
    rewrite Hd. rewrite bool_decide_eq_true_2 by eauto.
    cbn [default from_option id py_iter mbind result_bind negb].
    rewrite process_coords_skip by assumption. reflexivity.
  - intros j r. unfold extract_green_centers.
    destruct (py_truthy j); [|auto]. cbn [negb].
    destruct (py_contains "coordinates" j) as [[|]|e];
      cbn [mbind result_bind negb]; [|auto|discriminate].
    intros H Herr. exfalso. revert H.
    repeat match goal with
    | |- context [result_bind _ ?m] => destruct m; cbn [mbind result_bind]
    | |- context [mbind _ ?m] => destruct m; cbn [mbind result_bind]
    end; try discriminate.
    intros [= <-]. discriminate Herr.
Qed.

Lemma extract_green_centers_no_green_witness :
  extract_green_centers
    (JObj [("courseID", JStr "X1");
           ("coordinates", JArr [JObj [("hole", JInt 1); ("poi", JInt 2);
                                       ("location", JInt 1)]])])
  = Ok (JObj [("courseID", JStr "X1"); ("holes", JArr []); ("count", JInt 0)]).
Proof.
  apply (proj1 extract_green_centers_no_green
           [("courseID", JStr "X1");
            ("coordinates", JArr [JObj [("hole", JInt 1); ("poi", JInt 2);
                                        ("location", JInt 1)]])]
           [JObj [("hole", JInt 1); ("poi", JInt 2); ("location", JInt 1)]]).
  - reflexivity.
  - repeat constructor.
Defined.

(** ** The notifier *)

Lemma send_course_email_returns (w : world) (course_id : string)
    (course_name course_data : json) (data_type : string) (quota : json) :
  exists sent,
    send_course_email w course_id course_name course_data data_type quota = Ok sent.
Proof.
  unfold send_course_email.
  match goal with |- context [if ?b then _ else _] => destruct b end;
    [eexists; reflexivity|].
  match goal with |- context [match ?m with Ok _ => _ | Raise _ => _ end] =>
    destruct m end; eexists; reflexivity.
Qed.

Lemma notify_run (w : world) (course_id : string) (course_name course_data : json)
    (data_type : string) (quota : json) (db : database) (log : list event) :
  exists sent,
    notify w course_id course_name course_data data_type quota (db, log)
    = (Ok tt, (db, (log ++ [Notified course_id course_name data_type sent])%list)).
Proof.
  destruct (send_course_email_returns w course_id course_name course_data
              data_type quota) as [sent Hsent].
  exists sent. unfold notify. rewrite Hsent. reflexivity.
Qed.

(** ** The resolver: a request served from the cache *)

Lemma resolve_hit (pf : platform) (w : world) (k : kind) (course_id : string)
    (db : database) (log : list event) (r : row) :
  db_fault w Connect = None ->
  db_fault w Select = None ->
  rows (cache_table k) db !! cache_key k course_id = Some r ->
  resolve pf w k course_id (db, log)
  = (Ok (cached_response pf k (value r)), (db, log)).
Proof.
  intros Hc Hs Hrow. unfold cached_response.
  destruct k; run; rewrite Hc, Hs; revert Hrow; run; intros ->;
    cbv [fmap option_fmap option_map normalize result_bind];
    (destruct (decode_cached pf (value r)) as [raw|e];
     [|destruct e; reflexivity]);
    match goal with
    | |- context [extract_green_centers raw] =>
        destruct (extract_green_centers raw) as [n|e]
    | |- context [extract_pars raw] =>
        destruct (extract_pars raw) as [n|e]
    end; try reflexivity; destruct e; reflexivity.
Qed.

Lemma with_token_hit (pf : platform) (w : world) (k : kind) (course_id : string)
    (s : state) (r : row) (t1 t2 : option string) :
  rows (cache_table k) (fst s) !! cache_key k course_id = Some r ->
  resolve pf (with_token t1 w) k course_id s
  = resolve pf (with_token t2 w) k course_id s.
Proof.
  intros Hrow. destruct s as [db log].
  destruct k; run; cbv [with_token db_fault];
    fold (db_fault w Connect); fold (db_fault w Select);
    destruct (db_fault w Connect); try reflexivity;
    destruct (db_fault w Select); try reflexivity;
    revert Hrow; run; intros ->; reflexivity.
Qed.

(** C10. A request that finds its entry in the cache gives the same
    answer, and leaves the same state, whatever [GOLF_API_TOKEN] is; when
    the entry decodes and normalises, the answer is the normalised data. *)
Theorem cache_hit_ignores_token (pf : platform) (w : world) (k : kind)
    (course_id : string) (db : database) (log : list event) (r : row)
    (t1 t2 : option string) :
  rows (cache_table k) db !! cache_key k course_id = Some r ->
  resolve pf (with_token t1 w) k course_id (db, log)
  = resolve pf (with_token t2 w) k course_id (db, log)
  /\ (db_fault w Connect = None -> db_fault w Select = None ->
      forall raw n, decode_cached pf (value r) = Ok raw -> normalize k raw = Ok n ->
      resolve pf (with_token t1 w) k course_id (db, log) = (Ok (jsonify n), (db, log))).
Proof.
  intros Hrow. split.
  - apply (with_token_hit pf w k course_id (db, log) r); exact Hrow.
  - intros Hc Hs raw n Hraw Hn.
    rewrite (resolve_hit pf (with_token t1 w) k course_id db log r Hc Hs Hrow).
    unfold cached_response. rewrite Hraw. cbn [mbind result_bind]. rewrite Hn.
    reflexivity.
Qed.

Lemma cache_hit_ignores_token_witness :
  resolve sample_platform
    (with_token (Some "secret") (quiet_world ∅ (RequestFailed TypeError)))
    coordinates "X1"
    ({| poi_rows := {[ "coordinates_X1" := Row sample_payload 1 ]};
        info_rows := ∅ |}, [])
  = resolve sample_platform
      (with_token None (quiet_world ∅ (RequestFailed TypeError)))
      coordinates "X1"
      ({| poi_rows := {[ "coordinates_X1" := Row sample_payload 1 ]};
          info_rows := ∅ |}, []).
Proof.
  apply (cache_hit_ignores_token sample_platform
           (quiet_world ∅ (RequestFailed TypeError)) coordinates "X1"
           {| poi_rows := {[ "coordinates_X1" := Row sample_payload 1 ]};
              info_rows := ∅ |} [] (Row sample_payload 1) (Some "secret") None).
  vm_compute. reflexivity.
Defined.

(** ** The resolver: the provider refuses *)

(** C3. On a miss where the provider is asked (for coordinates the token
    is set) and answers with a status outside 2xx, the answer carries that
    status and the text of the provider's answer; the log gains the fetch
    only (no write, no notification) and the database is as the other
    requests left it. *)
Theorem upstream_status_propagated (pf : platform) (w : world) (k : kind)
    (course_id : string) (db : database) (log : list event)
    (code : Z) (text : string) (j : result json) :
  db_fault w Connect = None ->
  db_fault w Select = None ->
  rows (cache_table k) db !! cache_key k course_id = None ->
  (k = coordinates -> configured (getenv w "GOLF_API_TOKEN") = true) ->
  upstream w = HttpResponse code text j ->
  code < 200 \/ 300 <= code ->
  exists url authorization,
    resolve pf w k course_id (db, log)
    = (Ok {| body := JObj [("error", JStr "Golf API request failed");
                           ("status_code", JInt code);
                           ("details", JStr text)];
             status := code |},
       (concurrent w db, (log ++ [Fetched url authorization])%list)).
Proof.
  intros Hc Hs Hrow Htoken Hup Hcode.
  assert (Z.eqb code 200 = false) as H200 by (apply Z.eqb_neq; lia).
  destruct k; run; rewrite Hc, Hs; revert Hrow; run; intros ->;
    cbv [fmap option_fmap option_map].
  - rewrite (Htoken eq_refl). cbv [negb]. rewrite Hup, H200.
    do 2 eexists. reflexivity.
  - rewrite Hup, H200. do 2 eexists. reflexivity.
Qed.

Lemma upstream_status_propagated_witness :
  exists url authorization,
    resolve sample_platform
      (quiet_world {[ "GOLF_API_TOKEN" := "secret" ]}
         (HttpResponse 429 "rate limited" (Raise JSONDecodeError)))
      coordinates "X1" (empty_db, [])
    = (Ok {| body := JObj [("error", JStr "Golf API request failed");
                           ("status_code", JInt 429);
                           ("details", JStr "rate limited")];
             status := 429 |},
       (empty_db, [Fetched url authorization])).
Proof.
  apply (upstream_status_propagated sample_platform
           (quiet_world {[ "GOLF_API_TOKEN" := "secret" ]}
              (HttpResponse 429 "rate limited" (Raise JSONDecodeError)))
           coordinates "X1" empty_db [] 429 "rate limited" (Raise JSONDecodeError)).
  - reflexivity.
  - reflexivity.
  - reflexivity.
  - intros _. vm_compute. reflexivity.
  - reflexivity.
  - right. lia.
Defined.

(** ** The resolver: no credential *)

(** C5. With [GOLF_API_TOKEN] unset and nothing in the cache, the request
    for coordinates stops with [{error}] and 500 before any fetch, while the
    request for info goes to the provider with the header [Bearer None] and
    passes its answer on. *)
Theorem missing_token_info_fetches (pf : platform) :
  let w := quiet_world ∅ (HttpResponse 401 "unauthorized" (Raise JSONDecodeError)) in
  resolve pf w coordinates "X1" (empty_db, [])
  = (Ok {| body := JObj [("error", JStr "Golf API token not configured")];
           status := 500 |}, (empty_db, []))
  /\ resolve pf w info "X1" (empty_db, [])
     = (Ok {| body := JObj [("error", JStr "Golf API request failed");
                            ("status_code", JInt 401);
                            ("details", JStr "unauthorized")];
              status := 401 |},
        (empty_db,
         [Fetched "https://www.golfapi.io/api/v2.3/courses/X1" "Bearer None"])).
Proof. split; vm_compute; reflexivity. Qed.

(** ** The resolver: the notification *)

Lemma with_mail_token (u p r : option string) (f : option pyexn) (w : world) :
  getenv (with_mail u p r f w) "GOLF_API_TOKEN" = getenv w "GOLF_API_TOKEN".
Proof.
  unfold getenv, with_mail, set_env; cbn [environ].
  destruct u, p, r;
    repeat first [rewrite lookup_insert_ne by done | rewrite lookup_delete_ne by done];
    reflexivity.
Qed.

(** C8. [send_course_email] returns in every case, with missing mail
    settings and with a failing transport alike; and the answer of a request
    and the database it leaves are the same under any two mail settings and
    transport behaviours, the one where the mail goes out among them. *)
Theorem notification_outcome_absorbed (pf : platform) (w : world) (k : kind)
    (course_id : string) (s : state)
    (user password recipient : option string) (fault : option pyexn) :
  (forall cid name data data_type quota,
     exists sent, send_course_email w cid name data data_type quota = Ok sent)
  /\ fst (resolve pf w k course_id s)
     = fst (resolve pf (with_mail user password recipient fault w) k course_id s)
  /\ fst (snd (resolve pf w k course_id s))
     = fst (snd (resolve pf (with_mail user password recipient fault w) k course_id s)).
Proof.
  split; [intros; apply send_course_email_returns|].
  destruct s as [db log].
  destruct k; run;
    rewrite with_mail_token;
    change (db_fault (with_mail user password recipient fault w)) with (db_fault w);
    change (upstream (with_mail user password recipient fault w)) with (upstream w);
    change (COURSES (with_mail user password recipient fault w)) with (COURSES w);
    change (now (with_mail user password recipient fault w)) with (now w);
    change (concurrent (with_mail user password recipient fault w)) with (concurrent w);
    repeat first
      [ split; reflexivity
      | match goal with
        | |- context [notify ?w' ?a ?b ?c ?d ?e (?db', ?log')] =>
            let sent := fresh "sent" in
            let H := fresh "H" in
            destruct (notify_run w' a b c d e db' log') as [sent H]; rewrite H; clear H
        end
      | branch ].
Qed.

(** ** The resolver: the second request *)

Lemma resolve_wrote (pf : platform) (w : world) (k : kind) (course_id : string)
    (db db1 : database) (r1 : result response) (log1 : list event) (p : json) :
  resolve pf w k course_id (db, []) = (r1, (db1, log1)) ->
  In (Wrote (cache_table k) (cache_key k course_id) p) log1 ->
  is_Some (rows (cache_table k) db1 !! cache_key k course_id).
Proof.
  intros H Hin; revert H.
  destruct k; run;
    repeat first
      [ match goal with
        | |- context [notify ?w' ?a ?b ?c ?d ?e (?db', ?log')] =>
            let sent := fresh "sent" in
            let H := fresh "H" in
            destruct (notify_run w' a b c d e db' log') as [sent H]; rewrite H; clear H
        end
      | branch ];
    intros [= <- <- <-]; cbn in Hin;
    repeat match goal with
           | H : _ \/ _ |- _ => destruct H
           | H : False |- _ => destruct H
           | H : _ = _ |- _ => discriminate H
           end;
    run; cbn [poi_rows info_rows]; rewrite lookup_insert_eq; eauto.
Qed.

(** C1. When a first request wrote the cache entry of its pair, a second
    request for the pair finds the entry, fetches nothing (its log stays
    empty and the database is untouched) and answers with
    [cached_response], a function of the stored value alone: the
    normalised data whenever the value decodes and normalises. *)
Theorem second_resolve_served_from_cache (pf : platform) (w1 w2 : world) (k : kind)
    (course_id : string) (db db1 : database) (r1 : result response)
    (log1 : list event) (p : json) :
  resolve pf w1 k course_id (db, []) = (r1, (db1, log1)) ->
  In (Wrote (cache_table k) (cache_key k course_id) p) log1 ->
  db_fault w2 Connect = None ->
  db_fault w2 Select = None ->
  exists r : row,
    rows (cache_table k) db1 !! cache_key k course_id = Some r
    /\ resolve pf w2 k course_id (db1, [])
       = (Ok (cached_response pf k (value r)), (db1, []))
    /\ forall raw n,
         decode_cached pf (value r) = Ok raw -> normalize k raw = Ok n ->
         cached_response pf k (value r) = jsonify n.
Proof.
  intros Hfirst Hwrote Hc Hs.
  destruct (resolve_wrote pf w1 k course_id db db1 r1 log1 p Hfirst Hwrote)
    as [r Hr].
  exists r. split; [exact Hr|]. split.
  - apply resolve_hit; assumption.
  - intros raw n Hraw Hn. unfold cached_response.
    rewrite Hraw. cbn [mbind result_bind]. rewrite Hn. reflexivity.
Qed.

Lemma second_resolve_served_from_cache_witness :
  let w := quiet_world {[ "GOLF_API_TOKEN" := "secret" ]}
             (HttpResponse 200 "sample_payload" (Ok sample_payload)) in
  let db1 := fst (snd (resolve sample_platform w coordinates "X1" (empty_db, []))) in
  exists r : row,
    poi_rows db1 !! "coordinates_X1" = Some r
    /\ resolve sample_platform (with_token None w) coordinates "X1" (db1, [])
       = (Ok (cached_response sample_platform coordinates (value r)), (db1, [])).
Proof.
  intros w db1.
  destruct (second_resolve_served_from_cache sample_platform w (with_token None w)
              coordinates "X1" empty_db db1
              (fst (resolve sample_platform w coordinates "X1" (empty_db, [])))
              (snd (snd (resolve sample_platform w coordinates "X1" (empty_db, []))))
              (JStr "sample_payload"))
    as [r [Hr [Hsecond _]]].
  - vm_compute. reflexivity.
  - vm_compute. right. left. reflexivity.
  - reflexivity.
  - reflexivity.
  - exists r. split; [exact Hr | exact Hsecond].
Defined.

(** ** The cache writes *)

(** C6. The insertion of the resolver, when it runs into a row that a
    concurrent request committed, replaces the value and leaves
    [inserted_at] as it was (1, not the 2 of the insertion), whereas the
    insertion of [POST /cache] on the same row sets it. *)
Theorem resolver_overwrite_keeps_timestamp :
  (forall pf : platform,
     poi_rows (fst (snd (resolve pf race_world coordinates "X1" (empty_db, []))))
       !! "coordinates_X1"
     = Some {| value := stored_as pf (JStr (json_dumps pf sample_payload));
               inserted_at := 1 |})
  /\ poi_rows
       (fst (snd (db_error_handler sample_platform
                    (store_cached_course_poi sample_platform race_world
                       (JObj [("key", JStr "coordinates_X1");
                              ("value", sample_payload)]))
                    ({| poi_rows := {[ "coordinates_X1" := Row (JStr "other") 1 ]};
                        info_rows := ∅ |}, []))))
       !! "coordinates_X1"
     = Some {| value := JStr "sample_payload"; inserted_at := 2 |}.
Proof.
  split.
  - intros pf. vm_compute. reflexivity.
  - vm_compute. reflexivity.
Qed.

(** ** The normalisers: green centers *)

Lemma Qeq_bool_inject_Z (a b : Z) :
  Qeq_bool (inject_Z a) (inject_Z b) = Z.eqb a b.
Proof.
  unfold Qeq_bool, inject_Z; cbn [Qnum Qden].
  rewrite !Z.mul_1_r. reflexivity.
Qed.

Lemma Qle_bool_inject_Z (a b : Z) :
  Qle_bool (inject_Z a) (inject_Z b) = Z.leb a b.
Proof.
  unfold Qle_bool, inject_Z; cbn [Qnum Qden].
  rewrite !Z.mul_1_r. reflexivity.
Qed.

Lemma py_eq_int_JInt (a n : Z) : py_eq_int (JInt a) n = Z.eqb a n.
Proof. apply Qeq_bool_inject_Z. Qed.

Lemma py_key_eq_JInt (a b : Z) : py_key_eq (JInt a) (JInt b) = Z.eqb a b.
Proof. apply Qeq_bool_inject_Z. Qed.

Lemma py_lt_JInt (a b : Z) : py_lt (JInt a) (JInt b) = Ok (Z.ltb a b).
Proof.
  unfold py_lt; cbn [num_of]. rewrite Qle_bool_inject_Z.
  f_equal. rewrite Z.ltb_antisym. reflexivity.
Qed.

(** A value equals at most one int. *)
Lemma py_eq_int_unique (x : json) (a b : Z) :
  py_eq_int x a = true -> py_eq_int x b = true -> a = b.
Proof.
  unfold py_eq_int. destruct (num_of x) as [q|]; [|discriminate].
  rewrite !Qeq_bool_iff. intros Ha Hb.
  apply Z.eqb_eq. rewrite <- Qeq_bool_inject_Z. apply Qeq_bool_iff.
  rewrite <- Ha, <- Hb. reflexivity.
Qed.

Lemma dict_get_set_eq (k : string) (v : json) (d : list (string * json)) :
  dict_get k (dict_set k v d) = Some v.
Proof.
  induction d as [|[k' v'] d IH]; cbn [dict_set dict_get].
  - rewrite String.eqb_refl. reflexivity.
  - destruct (String.eqb k k') eqn:E; cbn [dict_get]; rewrite E; auto.
Qed.

Lemma dict_get_set_ne (k k' : string) (v : json) (d : list (string * json)) :
  k <> k' -> dict_get k (dict_set k' v d) = dict_get k d.
Proof.
  intros Hne. apply String.eqb_neq in Hne.
  induction d as [|[k0 v0] d IH]; cbn [dict_set dict_get].
  - rewrite Hne. reflexivity.
  - destruct (String.eqb k' k0) eqn:E; cbn [dict_get].
    + apply String.eqb_eq in E. subst k0. rewrite Hne. reflexivity.
    + rewrite IH. reflexivity.
Qed.

Lemma hd_lookup_app (k k' : json) (e : list (string * json)) (hd : holes_dict) :
  hd_lookup k (hd ++ [(k', e)])%list
  = match hd_lookup k hd with
    | Some v => Some v
    | None => if py_key_eq k k' then Some e else None
    end.
Proof.
  induction hd as [|[k0 e0] hd IH]; cbn [hd_lookup app]; [reflexivity|].
  destruct (py_key_eq k k0); [reflexivity | exact IH].
Qed.

Lemma hd_set_field_keys (k : json) (f : string) (v : json) (hd : holes_dict) :
  map fst (hd_set_field k f v hd) = map fst hd.
Proof.
  induction hd as [|[k0 e0] hd IH]; cbn [hd_set_field map]; [reflexivity|].
  destruct (py_key_eq k k0); cbn [map fst]; [reflexivity | rewrite IH; reflexivity].
Qed.

Lemma hd_lookup_set_field_eq (k : json) (f : string) (v : json) (hd : holes_dict) :
  hd_lookup k (hd_set_field k f v hd) = dict_set f v <$> hd_lookup k hd.
Proof.
  induction hd as [|[k0 e0] hd IH]; cbn [hd_set_field hd_lookup]; [reflexivity|].
  destruct (py_key_eq k k0) eqn:E; cbn [hd_lookup]; rewrite E; [reflexivity | exact IH].
Qed.

Lemma hd_lookup_set_field_ne (a b : Z) (f : string) (v : json) (hd : holes_dict)
    (ns : list Z) :
  map fst hd = map JInt ns -> a <> b ->
  hd_lookup (JInt a) (hd_set_field (JInt b) f v hd) = hd_lookup (JInt a) hd.
Proof.
  intros Hkeys Hne. revert ns Hkeys.
  induction hd as [|[k0 e0] hd IH]; intros ns Hkeys; [reflexivity|].
  destruct ns as [|m ns]; [discriminate|].
  cbn [map fst] in Hkeys. injection Hkeys as -> Hkeys.
  cbn [hd_set_field hd_lookup]. rewrite py_key_eq_JInt.
  destruct (Z.eqb b m) eqn:E; cbn [hd_lookup]; rewrite py_key_eq_JInt.
  - apply Z.eqb_eq in E. subst m.
    destruct (Z.eqb a b) eqn:E'; [apply Z.eqb_eq in E'; contradiction | reflexivity].
  - destruct (Z.eqb a m); [reflexivity | eapply IH; eassumption].
Qed.

Lemma hd_lookup_int_keys (n : Z) (hd : holes_dict) (ns : list Z) :
  map fst hd = map JInt ns ->
  (is_Some (hd_lookup (JInt n) hd) <-> In n ns).
Proof.
  revert ns. induction hd as [|[k0 e0] hd IH]; intros ns Hkeys.
  - destruct ns; [|discriminate]. cbn. split; [intros [? ?]; discriminate | tauto].
  - destruct ns as [|m ns]; [discriminate|].
    cbn [map fst] in Hkeys. injection Hkeys as -> Hkeys.
    cbn [hd_lookup In]. rewrite py_key_eq_JInt.
    destruct (Z.eqb n m) eqn:E.
    + apply Z.eqb_eq in E. subst m. split; [auto | eauto].
    + apply Z.eqb_neq in E. rewrite (IH ns Hkeys).
      split; [auto | intros [?|?]; [congruence | assumption]].
Qed.

Lemma last_point_snoc (n l : Z) (cs : list json) (c : json) :
  last_point n l (cs ++ [c])
  = if green_at n l c then Some (point_of c) else last_point n l cs.
Proof.
  unfold last_point. rewrite List.filter_app. cbn [List.filter].
  destruct (green_at n l c).
  - rewrite last_snoc. reflexivity.
  - rewrite app_nil_r. reflexivity.
Qed.

Lemma last_point_none (n l : Z) (cs : list json) :
  ~ (exists c, In c cs /\ is_green c = true /\ py_eq_int (field "hole" c) n = true) ->
  last_point n l cs = None.
Proof.
  intros Hno. unfold last_point.
  replace (List.filter (green_at n l) cs) with (@nil json); [reflexivity|].
  symmetry. induction cs as [|c cs IH]; [reflexivity|].
  cbn [List.filter].
  destruct (green_at n l c) eqn:E.
  - exfalso. apply Hno. exists c. unfold green_at in E.
    apply andb_true_iff in E as [E _]. apply andb_true_iff in E as [E1 E2].
    split; [left; reflexivity | split; assumption].
  - apply IH. intros (c' & Hin & Hg & Hh). apply Hno.
    exists c'. split; [right; exact Hin | split; assumption].
Qed.

Lemma green_location (c : json) :
  is_green c = true ->
  exists l, In l [1; 2; 3] /\ py_eq_int (field "location" c) l = true.
Proof.
  unfold is_green. intros H. apply andb_true_iff in H as [_ H].
  apply existsb_exists in H. exact H.
Qed.

Lemma process_coord_green (hd : holes_dict) (c : json) (m l : Z) :
  is_object c = true -> is_green c = true -> field "hole" c = JInt m ->
  In l [1; 2; 3] -> py_eq_int (field "location" c) l = true ->
  process_coord hd c
  = Ok (hd_set_field (JInt m) (green_field l) (point_of c)
          (if bool_decide (is_Some (hd_lookup (JInt m) hd)) then hd
           else (hd ++ [(JInt m, [("holeNumber", JInt m)])])%list)).
Proof.
  destruct c as [| | | | | |d]; try discriminate. intros _ Hgreen Hhole Hl Hloc.
  pose proof Hgreen as Hg. unfold is_green in Hg.
  apply andb_true_iff in Hg as [Hpoi Hlocs].
  unfold process_coord, point_of. unfold field in *.
  cbn [py_get mbind result_bind].
  rewrite Hpoi, Hlocs, Hhole. cbn [negb hd_contains hashable mbind result_bind].
  set (hd1 := if bool_decide (is_Some (hd_lookup (JInt m) hd)) then hd
              else (hd ++ [(JInt m, [("holeNumber", JInt m)])])%list).
  assert (is_Some (hd_lookup (JInt m) hd1)) as [e1 He1].
  { subst hd1. case_bool_decide as Hpresent; [exact Hpresent|].
    rewrite hd_lookup_app. destruct (hd_lookup (JInt m) hd); [eauto|].
    rewrite py_key_eq_JInt, Z.eqb_refl. eauto. }
  unfold hd_getitem. cbn [hashable]. rewrite He1. cbn [mbind result_bind].
  assert (forall l', py_eq_int (default JNull (dict_get "location" d)) l'
                     = Z.eqb l' l) as Hchoice.
  { intros l'. destruct (Z.eqb l' l) eqn:E.
    - apply Z.eqb_eq in E. subst l'. exact Hloc.
    - apply Z.eqb_neq in E.
      destruct (py_eq_int (default JNull (dict_get "location" d)) l') eqn:E';
        [|reflexivity].
      exfalso. apply E. eapply py_eq_int_unique; eassumption. }
  rewrite !Hchoice.
  cbn [In] in Hl. destruct Hl as [<-|[<-|[<-|[]]]]; reflexivity.
Qed.

Lemma green_field_inj (l l' : Z) :
  In l [1; 2; 3] -> In l' [1; 2; 3] -> green_field l = green_field l' -> l = l'.
Proof.
  cbn [In]. intros [<-|[<-|[<-|[]]]] [<-|[<-|[<-|[]]]]; cbv; congruence.
Qed.

Lemma green_field_not_number (l : Z) : "holeNumber" <> green_field l.
Proof.
  unfold green_field. destruct (Z.eqb l 1); [discriminate|].
  destruct (Z.eqb l 2); discriminate.
Qed.

Lemma holes_inv_nil : holes_inv [] [].
Proof.
  split.
  - exists []. split; [reflexivity|]. split; [constructor|].
    intros n. split; [intros [] | intros (c & [] & _)].
  - intros n e H. discriminate H.
Qed.

Lemma holes_inv_skip (cs : list json) (hd : holes_dict) (c : json) :
  holes_inv cs hd -> is_green c = false -> holes_inv (cs ++ [c]) hd.
Proof.
  intros [(ns & Hkeys & Hnd & Hmem) Hent] Hg. split.
  - exists ns. split; [exact Hkeys|]. split; [exact Hnd|].
    intros n. rewrite Hmem. split; intros (c' & Hin & Hg' & Hh); exists c'.
    + split; [apply in_or_app; left; exact Hin | split; assumption].
    + apply in_app_or in Hin as [Hin|[<-|[]]]; [|congruence].
      split; [exact Hin | split; assumption].
  - intros n e He. destruct (Hent n e He) as [H1 H2]. split; [exact H1|].
    intros l Hl. rewrite last_point_snoc. unfold green_at. rewrite Hg.
    cbn [andb]. apply H2. exact Hl.
Qed.

Lemma holes_inv_green (cs : list json) (hd : holes_dict) (c : json) (m l : Z) :
  holes_inv cs hd ->
  is_green c = true -> field "hole" c = JInt m ->
  In l [1; 2; 3] -> py_eq_int (field "location" c) l = true ->
  holes_inv (cs ++ [c])
    (hd_set_field (JInt m) (green_field l) (point_of c)
       (if bool_decide (is_Some (hd_lookup (JInt m) hd)) then hd
        else (hd ++ [(JInt m, [("holeNumber", JInt m)])])%list)).
Proof.
  intros [(ns & Hkeys & Hnd & Hmem) Hent] Hg Hhole Hl Hloc.
  set (hd1 := if bool_decide (is_Some (hd_lookup (JInt m) hd)) then hd
              else (hd ++ [(JInt m, [("holeNumber", JInt m)])])%list).
  set (ns1 := if bool_decide (is_Some (hd_lookup (JInt m) hd)) then ns
              else (ns ++ [m])%list).
  assert (map fst hd1 = map JInt ns1) as Hkeys1.
  { subst hd1 ns1. case_bool_decide; [exact Hkeys|].
    rewrite !map_app, Hkeys. reflexivity. }
  assert (forall n, In n ns1 <-> n = m \/ In n ns) as Hns1.
  { intros n. subst ns1. case_bool_decide as Hp.
    - apply (hd_lookup_int_keys m hd ns Hkeys) in Hp.
      split; [auto | intros [->|H]; assumption].
    - rewrite in_app_iff. cbn [In]. split; [intros [?|[?|[]]]; auto | intros [?|?]; auto]. }
  assert (forall l', py_eq_int (field "location" c) l' = Z.eqb l' l) as Hchoice.
  { intros l'. destruct (Z.eqb l' l) eqn:E.
    - apply Z.eqb_eq in E. subst l'. exact Hloc.
    - apply Z.eqb_neq in E.
      destruct (py_eq_int (field "location" c) l') eqn:E'; [|reflexivity].
      exfalso. apply E. eapply py_eq_int_unique; eassumption. }
  assert (forall n l', green_at n l' c = Z.eqb m n && Z.eqb l' l) as Hat.
  { intros n l'. unfold green_at.
    rewrite Hg, Hhole, py_eq_int_JInt, Hchoice. reflexivity. }
  split.
  - exists ns1. split; [rewrite hd_set_field_keys; exact Hkeys1|]. split.
    + subst ns1. case_bool_decide as Hp; [exact Hnd|].
      apply NoDup_app. split; [exact Hnd|]. split; [|apply NoDup_singleton].
      intros x Hx Hx'. apply list_elem_of_In in Hx, Hx'.
      cbn [In] in Hx'. destruct Hx' as [<-|[]].
      apply Hp. apply (hd_lookup_int_keys m hd ns Hkeys). exact Hx.
    + intros n. rewrite Hns1, Hmem. split.
      * intros [->|(c' & Hin & Hg' & Hh)].
        -- exists c. split; [apply in_or_app; right; left; reflexivity|].
           split; [exact Hg|]. rewrite Hhole, py_eq_int_JInt. apply Z.eqb_refl.
        -- exists c'. split; [apply in_or_app; left; exact Hin | split; assumption].
      * intros (c' & Hin & Hg' & Hh).
        apply in_app_or in Hin as [Hin|[<-|[]]].
        -- right. exists c'. split; [exact Hin | split; assumption].
        -- left. rewrite Hhole, py_eq_int_JInt in Hh. apply Z.eqb_eq in Hh. auto.
  - intros n e He. destruct (Z.eq_dec n m) as [->|Hne].
    + rewrite hd_lookup_set_field_eq in He.
      destruct (hd_lookup (JInt m) hd1) as [e1|] eqn:He1; [|discriminate].
      cbn in He. injection He as <-.
      assert (dict_get "holeNumber" e1 = Some (JInt m) /\
              forall l', In l' [1; 2; 3] ->
                         dict_get (green_field l') e1 = last_point m l' cs) as [H1 H2].
      { subst hd1. case_bool_decide as Hp; [apply Hent; exact He1|].
        rewrite hd_lookup_app in He1.
        destruct (hd_lookup (JInt m) hd) eqn:E; [exfalso; apply Hp; eauto|].
        rewrite py_key_eq_JInt, Z.eqb_refl in He1. injection He1 as <-.
        split; [reflexivity|]. intros l' Hl'.
        rewrite last_point_none.
        - pose proof (green_field_not_number l') as Hf.
          cbn [dict_get]. apply String.eqb_neq in Hf.
          rewrite String.eqb_sym, Hf. reflexivity.
        - intros Hex. apply Hmem in Hex. apply Hp.
          apply (hd_lookup_int_keys m hd ns Hkeys) in Hex.
          rewrite E in Hex. exact Hex. }
      split.
      * rewrite dict_get_set_ne by apply green_field_not_number. exact H1.
      * intros l' Hl'. rewrite last_point_snoc, Hat, Z.eqb_refl. cbn [andb].
        destruct (Z.eqb l' l) eqn:E.
        -- apply Z.eqb_eq in E. subst l'. apply dict_get_set_eq.
        -- apply Z.eqb_neq in E. rewrite dict_get_set_ne; [apply H2; exact Hl'|].
           intros Hf. apply E. apply green_field_inj; assumption.
    + rewrite (hd_lookup_set_field_ne n m _ _ hd1 ns1 Hkeys1 Hne) in He.
      assert (hd_lookup (JInt n) hd = Some e) as He0.
      { subst hd1. case_bool_decide; [exact He|].
        rewrite hd_lookup_app in He.
        destruct (hd_lookup (JInt n) hd); [exact He|].
        rewrite py_key_eq_JInt in He.
        destruct (Z.eqb n m) eqn:E; [apply Z.eqb_eq in E; contradiction | discriminate]. }
      destruct (Hent n e He0) as [H1 H2]. split; [exact H1|].
      intros l' Hl'. rewrite last_point_snoc, Hat.
      destruct (Z.eqb m n) eqn:E; [apply Z.eqb_eq in E; congruence|].
      cbn [andb]. apply H2. exact Hl'.
Qed.

Lemma process_coords_inv (rest cs : list json) (hd : holes_dict) :
  holes_inv cs hd ->
  Forall (fun c => coordinate_item c = true) rest ->
  exists hd', process_coords hd rest = Ok hd' /\ holes_inv (cs ++ rest) hd'.
Proof.
  intros Hinv Hrest. revert cs hd Hinv.
  induction Hrest as [|c rest Hc _ IH]; intros cs hd Hinv.
  - exists hd. rewrite app_nil_r. split; [reflexivity | exact Hinv].
  - unfold coordinate_item in Hc. apply andb_true_iff in Hc as [Hobj Hc].
    cbn [process_coords].
    replace (cs ++ c :: rest)%list with ((cs ++ [c]) ++ rest)%list
      by (rewrite <- app_assoc; reflexivity).
    destruct (is_green c) eqn:Hg.
    + cbn [negb orb] in Hc.
      destruct (field "hole" c) as [| |m| | | |] eqn:Hhole; try discriminate.
      destruct (green_location c Hg) as (l & Hl & Hloc).
      rewrite (process_coord_green hd c m l Hobj Hg Hhole Hl Hloc).
      cbn [mbind result_bind]. apply IH.
      apply holes_inv_green; assumption.
    + rewrite (process_coord_skip hd c Hobj Hg).
      cbn [mbind result_bind]. apply IH.
      apply holes_inv_skip; assumption.
Qed.

Lemma py_insert_int (x : Z) (l : list Z) :
  StronglySorted Z.lt l -> ~ In x l ->
  exists l', py_insert (JInt x) (map JInt l) = Ok (map JInt l') /\
             StronglySorted Z.lt l' /\
             forall z, In z l' <-> z = x \/ In z l.
Proof.
  induction 1 as [|y l Hsorted IH Hy]; intros Hx.
  - exists [x]. split; [reflexivity|]. split; [repeat constructor|].
    intros z. cbn [In]. split; [intros [->|[]]; auto | intros [->|[]]; auto].
  - cbn [map py_insert]. rewrite py_lt_JInt. cbn [mbind result_bind].
    destruct (Z.ltb y x) eqn:E.
    + apply Z.ltb_lt in E.
      destruct IH as (l' & Hins & Hs' & Hmem'); [intros H; apply Hx; right; exact H|].
      rewrite Hins. cbn [mbind result_bind].
      exists (y :: l'). split; [reflexivity|]. split.
      * constructor; [exact Hs'|]. apply Forall_forall. intros z Hz.
        apply list_elem_of_In, Hmem' in Hz. destruct Hz as [->|Hz]; [exact E|].
        rewrite Forall_forall in Hy. apply Hy, list_elem_of_In. exact Hz.
      * intros z. cbn [In]. rewrite Hmem'. tauto.
    + apply Z.ltb_ge in E.
      assert (x < y) as Hlt.
      { destruct (Z.eq_dec x y) as [->|Hne]; [exfalso; apply Hx; left; reflexivity | lia]. }
      exists (x :: y :: l). split; [reflexivity|]. split.
      * constructor; [constructor; assumption|].
        constructor; [exact Hlt|].
        eapply Forall_impl; [exact Hy|]. intros z Hz. cbn beta in Hz. lia.
      * intros z. cbn [In]. intuition congruence.
Qed.

Lemma py_sorted_int (ns : list Z) :
  NoDup ns ->
  exists l', py_sorted (map JInt ns) = Ok (map JInt l') /\
             StronglySorted Z.lt l' /\
             forall z, In z l' <-> In z ns.
Proof.
  induction 1 as [|x ns Hx Hnd IH].
  - exists []. split; [reflexivity|]. split; [constructor | tauto].
  - destruct IH as (l0 & Hsort & Hs0 & Hmem0).
    destruct (py_insert_int x l0 Hs0) as (l' & Hins & Hs' & Hmem').
    { rewrite Hmem0. intros H. apply Hx, list_elem_of_In. exact H. }
    exists l'. cbn [map py_sorted]. rewrite Hsort. cbn [mbind result_bind].
    split; [exact Hins|]. split; [exact Hs'|].
    intros z. rewrite Hmem', Hmem0. cbn [In]. split; intros [?|?]; auto.
Qed.

Lemma holes_in_order_int (hd : holes_dict) (l : list Z) :
  (forall n, In n l -> is_Some (hd_lookup (JInt n) hd)) ->
  exists holes : list (Z * list (string * json)),
    holes_in_order hd (map JInt l) = Ok (map (fun h => JObj (snd h)) holes) /\
    map fst holes = l /\
    forall n e, In (n, e) holes -> hd_lookup (JInt n) hd = Some e.
Proof.
  induction l as [|n l IH]; intros Hall.
  - exists []. split; [reflexivity|]. split; [reflexivity | intros n e []].
  - destruct IH as (holes & Hrun & Hfst & Hent);
      [intros n' Hn'; apply Hall; right; exact Hn'|].
    destruct (Hall n) as [e He]; [left; reflexivity|].
    exists ((n, e) :: holes). cbn [map holes_in_order fst snd].
    unfold hd_getitem. cbn [hashable]. rewrite He. cbn [mbind result_bind].
    rewrite Hrun. cbn [mbind result_bind].
    split; [reflexivity|]. split; [rewrite Hfst; reflexivity|].
    intros n' e' [[= <- <-]|Hin]; [exact He | apply Hent; exact Hin].
Qed.

(** C2. For a payload whose [coordinates] is a list of items of the
    provider, the answer lists one entry per hole that has an entry of a
    green ([poi == 1], [location] in [{1, 2, 3}]), in ascending order of the
    hole number and without repetition; the entry of hole [n] has
    [holeNumber = n] and, for each of [frontOfGreen], [centerOfGreen] and
    [backOfGreen], the point of the last entry of a green of [n] at
    location 1, 2 and 3 (absent when there is none); [count] is the number
    of entries listed. *)
Theorem extract_green_centers_groups (d : list (string * json)) (cs : list json) :
  dict_get "coordinates" d = Some (JArr cs) ->
  Forall (fun c => coordinate_item c = true) cs ->
  exists holes : list (Z * list (string * json)),
    extract_green_centers (JObj d)
    = Ok (JObj [("courseID", default (JStr EmptyString) (dict_get "courseID" d));
                ("holes", JArr (map (fun h => JObj (snd h)) holes));
                ("count", JInt (Z.of_nat (length holes)))])
    /\ StronglySorted Z.lt (map fst holes)
    /\ (forall n, In n (map fst holes) <->
          exists c, In c cs /\ is_green c = true /\ field "hole" c = JInt n)
    /\ (forall n e, In (n, e) holes ->
          dict_get "holeNumber" e = Some (JInt n) /\
          dict_get "frontOfGreen" e = last_point n 1 cs /\
          dict_get "centerOfGreen" e = last_point n 2 cs /\
          dict_get "backOfGreen" e = last_point n 3 cs).
Proof.
  intros Hd Hcs.
  destruct (process_coords_inv cs [] [] holes_inv_nil Hcs) as (hd & Hrun & Hinv).
  cbn [app] in Hinv. destruct Hinv as [(ns & Hkeys & Hnd & Hmem) Hent].
  destruct (py_sorted_int ns Hnd) as (l & Hsort & Hsorted & Hl).
  destruct (holes_in_order_int hd l) as (holes & Horder & Hfst & Hholes).
  { intros n Hn. apply (hd_lookup_int_keys n hd ns Hkeys), Hl. exact Hn. }
  exists holes. split; [|split; [|split]].
  - unfold extract_green_centers.
    destruct d as [|kv d']; [discriminate|].
    cbn [py_truthy negb py_contains py_get mbind result_bind].
    rewrite Hd. rewrite bool_decide_eq_true_2 by eauto.
    cbn [default from_option id py_iter mbind result_bind negb].
    rewrite Hrun. cbn [mbind result_bind].
    rewrite Hkeys, Hsort. cbn [mbind result_bind].
    rewrite Horder. cbn [mbind result_bind].
    rewrite length_map. reflexivity.
  - rewrite Hfst. exact Hsorted.
  - intros n. rewrite Hfst, Hl, Hmem.
    split; intros (c & Hin & Hg & Hh); exists c;
      (split; [exact Hin|]; split; [exact Hg|]).
    + rewrite Forall_forall in Hcs.
      pose proof (Hcs c (proj2 (list_elem_of_In _ _) Hin)) as Hc.
      unfold coordinate_item in Hc. rewrite Hg in Hc.
      apply andb_true_iff in Hc as [_ Hc]. cbn [negb orb] in Hc.
      destruct (field "hole" c) as [| |m| | | |]; try discriminate.
      rewrite py_eq_int_JInt in Hh. apply Z.eqb_eq in Hh. subst m. reflexivity.
    + rewrite Hh, py_eq_int_JInt. apply Z.eqb_refl.
  - intros n e Hin. destruct (Hent n e (Hholes n e Hin)) as [H1 H2].
    split; [exact H1|].
    split; [apply (H2 1); cbn; auto|].
    split; [apply (H2 2); cbn; auto | apply (H2 3); cbn; auto].
Qed.

Lemma extract_green_centers_groups_witness :
  exists holes : list (Z * list (string * json)),
    extract_green_centers (JObj [("coordinates", JArr sample_greens)])
    = Ok (JObj [("courseID", JStr EmptyString);
                ("holes", JArr (map (fun h => JObj (snd h)) holes));
                ("count", JInt (Z.of_nat (length holes)))])
    /\ StronglySorted Z.lt (map fst holes)
    /\ (forall n, In n (map fst holes) <->
          exists c, In c sample_greens /\ is_green c = true /\
                    field "hole" c = JInt n)
    /\ (forall n e, In (n, e) holes ->
          dict_get "holeNumber" e = Some (JInt n) /\
          dict_get "frontOfGreen" e = last_point n 1 sample_greens /\
          dict_get "centerOfGreen" e = last_point n 2 sample_greens /\
          dict_get "backOfGreen" e = last_point n 3 sample_greens).
Proof.
  apply (extract_green_centers_groups
           [("coordinates", JArr sample_greens)] sample_greens).
  - reflexivity.
  - repeat constructor.
Defined.

Example extract_green_centers_sample_greens :
  extract_green_centers (JObj [("coordinates", JArr sample_greens)])
  = Ok (JObj [("courseID", JStr EmptyString);
              ("holes",
               JArr [JObj [("holeNumber", JInt 1);
                           ("backOfGreen",
                            JObj [("latitude", JInt 7); ("longitude", JInt 8)])];
                     JObj [("holeNumber", JInt 2);
                           ("frontOfGreen",
                            JObj [("latitude", JInt 5); ("longitude", JInt 6)])]]);
              ("count", JInt 2)]).
Proof. reflexivity. Qed.

Example extract_green_centers_sample_payload :
  extract_green_centers sample_payload
  = Ok (JObj [("courseID", JStr "X1");
              ("holes",
               JArr [JObj [("holeNumber", JInt 1);
                           ("centerOfGreen",
                            JObj [("latitude", JFloat (10 # 1));
                                  ("longitude", JFloat (20 # 1))])]]);
              ("count", JInt 1)]).
Proof. reflexivity. Qed.

(** ** Strings and [split] *)

Lemma append_cons (c : ascii) (s t : string) :
  String c s +:+ t = String c (s +:+ t).
Proof. reflexivity. Qed.

Lemma append_nil_r (s : string) : s +:+ EmptyString = s.
Proof. induction s as [|c s IH]; [reflexivity|]. rewrite append_cons, IH. reflexivity. Qed.

Lemma append_assoc (s t u : string) : (s +:+ t) +:+ u = s +:+ (t +:+ u).
Proof.
  induction s as [|c s IH]; [reflexivity|]. rewrite !append_cons, IH. reflexivity.
Qed.

Lemma prefix_append (s t : string) : String.prefix s (s +:+ t) = true.
Proof.
  induction s as [|c s IH]; [destruct t; reflexivity|].
  rewrite append_cons. cbn [String.prefix].
  destruct (ascii_dec c c); [exact IH | congruence].
Qed.

Lemma prefix_split (s u : string) :
  String.prefix s u = true -> exists t, u = s +:+ t.
Proof.
  revert u. induction s as [|c s IH]; intros u H.
  - exists u. reflexivity.
  - destruct u as [|d u]; [discriminate|]. cbn [String.prefix] in H.
    destruct (ascii_dec c d) as [->|]; [|discriminate].
    destruct (IH u H) as [t ->]. exists t. reflexivity.
Qed.

Lemma prefix_extend (s b r : string) :
  String.prefix s b = true -> String.prefix s (b +:+ r) = true.
Proof.
  intros H. destruct (prefix_split s b H) as [t ->].
  rewrite append_assoc. apply prefix_append.
Qed.

Lemma snoc_split (cur a b : string) (c : ascii) :
  cur +:+ String c EmptyString = a +:+ b -> b <> EmptyString ->
  (b = String c EmptyString /\ a = cur)
  \/ exists b', b = b' +:+ String c EmptyString /\ cur = a +:+ b' /\ b' <> EmptyString.
Proof.
  revert a. induction cur as [|y cur IH]; intros a H Hb.
  - destruct a as [|x a].
    + left. split; [symmetry; exact H | reflexivity].
    + rewrite append_cons in H. injection H as _ H.
      destruct a; destruct b; try discriminate. congruence.
  - destruct a as [|x a].
    + right. exists (String y cur). split; [symmetry; exact H|].
      split; [reflexivity | discriminate].
    + rewrite !append_cons in H. injection H as <- H.
      destruct (IH a H Hb) as [[-> ->]|(b' & -> & -> & Hb')].
      * left. split; reflexivity.
      * right. exists b'. split; [reflexivity|]. split; [reflexivity | exact Hb'].
Qed.

Lemma split_from_head (sep t cur : string) :
  clean sep cur t ->
  exists p r tl,
    split_from sep 0 cur t = (cur +:+ p) :: tl /\ t = p +:+ r /\
    clean sep (cur +:+ p) r.
Proof.
  revert cur. induction t as [|c t IH]; intros cur Hclean.
  - exists EmptyString, EmptyString, []. rewrite append_nil_r.
    split; [reflexivity|]. split; [reflexivity | exact Hclean].
  - cbn [split_from]. destruct (String.prefix sep (String c t)) eqn:E.
    + exists EmptyString, (String c t). eexists. rewrite append_nil_r.
      split; [reflexivity|]. split; [reflexivity | exact Hclean].
    + destruct (IH (cur +:+ String c EmptyString)) as (p & r & tl & Hrun & -> & Hc).
      { intros a b Hab Hb.
        destruct (snoc_split cur a b c Hab Hb) as [[-> ->]|(b' & -> & -> & Hb')].
        - exact E.
        - rewrite append_assoc. apply (Hclean a b'); [reflexivity | exact Hb']. }
      exists (String c p), r, tl.
      rewrite append_assoc in Hrun, Hc.
      split; [exact Hrun|]. split; [reflexivity | exact Hc].
Qed.

Lemma clean_no_occurrence (sep h r : string) :
  sep <> EmptyString -> clean sep h r -> occurs sep h = false.
Proof.
  intros Hsep. induction h as [|x h IH]; intros Hclean.
  - destruct sep; [congruence | reflexivity].
  - cbn [occurs]. apply orb_false_iff. split.
    + destruct (String.prefix sep (String x h)) eqn:E; [|reflexivity].
      rewrite <- (Hclean EmptyString (String x h) eq_refl); [|discriminate].
      symmetry. apply prefix_extend. exact E.
    + apply IH. intros a b -> Hb. apply (Hclean (String x a) b); [reflexivity | exact Hb].
Qed.

Lemma clean_nil (sep t : string) : clean sep EmptyString t.
Proof. intros a b H Hb. destruct a; destruct b; try discriminate. congruence. Qed.

(** What [split('Bearer ')] gives on a header that starts with the
    separator: an empty piece, then the text up to the next separator. *)
Lemma split_bearer (auth_header : string) :
  String.prefix "Bearer " auth_header = true ->
  exists token rest tl,
    py_split "Bearer " auth_header = EmptyString :: token :: tl /\
    auth_header = "Bearer " +:+ token +:+ rest /\
    occurs "Bearer " token = false.
Proof.
  intros H. destruct (prefix_split _ _ H) as [t ->].
  destruct (split_from_head "Bearer " t EmptyString (clean_nil _ _))
    as (p & r & tl & Hrun & -> & Hclean).
  exists p, r, tl. split; [|split].
  - unfold py_split. pose proof (prefix_append "Bearer " (p +:+ r)) as Hp.
    set (x := p +:+ r) in *.
    change ("Bearer " +:+ x)
      with (String "B" (String "e" (String "a" (String "r"
             (String "e" (String "r" (String " " x))))))) in *.
    cbn [split_from]. rewrite Hp.
    cbn [split_from String.length Nat.sub]. f_equal. exact Hrun.
  - reflexivity.
  - apply (clean_no_occurrence "Bearer " p r); [discriminate | exact Hclean].
Qed.

Lemma append_nil_l (s : string) : EmptyString +:+ s = s.
Proof. reflexivity. Qed.

Lemma bearer_unfold (x : string) :
  "Bearer " +:+ x
  = String "B" (String "e" (String "a" (String "r"
      (String "e" (String "r" (String " " x)))))).
Proof. reflexivity. Qed.

(** No separator can start inside [t] and end inside a separator that
    follows it. *)
Lemma no_straddle (t junk : string) :
  t <> EmptyString ->
  String.prefix "Bearer " t = false ->
  String.prefix "Bearer " (t +:+ "Bearer " +:+ junk) = false.
Proof.
  intros Ht H. destruct t as [|c t]; [congruence|]. clear Ht.
  repeat first
    [ discriminate H
    | reflexivity
    | rewrite append_nil_l, bearer_unfold
    | rewrite append_cons
    | progress cbn [String.prefix] in *
    | match goal with
      | |- context [ascii_dec ?a ?b] =>
          destruct (ascii_dec a b) as [?|?]; [try discriminate; subst|]
      end
    | match goal with
      | |- context [?t' +:+ _] => is_var t'; destruct t' as [|? ?]
      end ].
Qed.

Lemma split_from_piece (t tail cur : string) :
  occurs "Bearer " t = false ->
  tail = EmptyString \/ (exists junk, tail = "Bearer " +:+ junk) ->
  exists tl, split_from "Bearer " 0 cur (t +:+ tail) = (cur +:+ t) :: tl.
Proof.
  intros Hocc Htail. revert cur Hocc.
  induction t as [|c t IH]; intros cur Hocc.
  - rewrite append_nil_l, append_nil_r. destruct Htail as [->|[junk ->]].
    + exists []. reflexivity.
    + pose proof (prefix_append "Bearer " junk) as Hp.
      rewrite bearer_unfold in Hp |- *. cbn [split_from].
      rewrite Hp. eexists. reflexivity.
  - cbn [occurs] in Hocc. apply orb_false_iff in Hocc as [Hpre Hocc].
    rewrite append_cons. cbn [split_from].
    assert (String.prefix "Bearer " (String c (t +:+ tail)) = false) as ->.
    { rewrite <- append_cons. destruct Htail as [->|[junk ->]].
      - rewrite append_nil_r. exact Hpre.
      - apply no_straddle; [discriminate | exact Hpre]. }
    destruct (IH (cur +:+ String c EmptyString) Hocc) as [tl Htl].
    exists tl. rewrite Htl, append_assoc. reflexivity.
Qed.

(** ** [require_auth] *)

Lemma require_auth_cases (API_SECRET : string) (authorization : option string)
    (f : M response) (s : state) :
  (exists msg, require_auth API_SECRET authorization f s = (Ok (unauthorized msg), s))
  \/ (exists rest,
        authorization = Some ("Bearer " +:+ API_SECRET +:+ rest) /\
        occurs "Bearer " API_SECRET = false /\
        require_auth API_SECRET authorization f s = f s).
Proof.
  unfold require_auth. destruct authorization as [auth_header|]; [|left; eauto].
  destruct (String.eqb auth_header EmptyString); [left; eauto|].
  destruct (String.prefix "Bearer " auth_header) eqn:Hpre; [|left; eauto].
  cbn [negb orb].
  destruct (split_bearer auth_header Hpre) as (token & rest & tl & -> & -> & Hocc).
  cbn [nth_error].
  destruct (String.eqb token API_SECRET) eqn:E; [|left; eauto].
  apply String.eqb_eq in E. subst token. right. exists rest. auto.
Qed.

(** X1. A request whose [Authorization] header is absent, or is not
    [Bearer ] followed at once by the secret, is answered 401 and the view
    is not run. *)
Theorem require_auth_rejects (API_SECRET : string) (authorization : option string)
    (f : M response) (s : state) :
  (forall rest, authorization <> Some ("Bearer " +:+ API_SECRET +:+ rest)) ->
  exists msg,
    require_auth API_SECRET authorization f s = (Ok (unauthorized msg), s).
Proof.
  intros Hno.
  destruct (require_auth_cases API_SECRET authorization f s)
    as [H|(rest & Hauth & _)]; [exact H|].
  exfalso. exact (Hno rest Hauth).
Qed.

Lemma require_auth_rejects_witness :
  exists msg,
    require_auth "s3cret" (Some "Basic s3cret") index (empty_db, [])
    = (Ok (unauthorized msg), (empty_db, [])).
Proof.
  apply (require_auth_rejects "s3cret" (Some "Basic s3cret") index (empty_db, [])).
  intros rest H. discriminate H.
Defined.

(** X2. With a secret in which [Bearer ] does not occur, the header
    [Bearer <secret>] runs the view, and so does any header that goes on
    with another [Bearer ] after the secret: [split] cuts the token there. *)
Theorem require_auth_accepts (API_SECRET tail : string) (f : M response) (s : state) :
  occurs "Bearer " API_SECRET = false ->
  tail = EmptyString \/ (exists junk, tail = "Bearer " +:+ junk) ->
  require_auth API_SECRET (Some ("Bearer " +:+ API_SECRET +:+ tail)) f s = f s.
Proof.
  intros Hocc Htail. unfold require_auth.
  rewrite prefix_append.
  assert (String.eqb ("Bearer " +:+ API_SECRET +:+ tail) EmptyString = false) as ->
    by reflexivity.
  cbn [negb orb]. unfold py_split.
  destruct (split_from_piece API_SECRET tail EmptyString Hocc Htail) as [tl Htl].
  pose proof (prefix_append "Bearer " (API_SECRET +:+ tail)) as Hp.
  rewrite bearer_unfold in Hp |- *. cbn [split_from]. rewrite Hp.
  cbn [split_from String.length Nat.sub]. rewrite Htl.
  cbn [nth_error]. rewrite append_nil_l, String.eqb_refl. reflexivity.
Qed.

Lemma require_auth_accepts_witness :
  require_auth "s3cret" (Some "Bearer s3cretBearer anything") index (empty_db, [])
  = index (empty_db, []).
Proof.
  apply (require_auth_accepts "s3cret" "Bearer anything" index (empty_db, [])).
  - reflexivity.
  - right. exists "anything". reflexivity.
Defined.

(** X3. With a secret in which [Bearer ] occurs, no header at all runs the
    view: the token that [split] cuts out never holds the separator. *)
Theorem require_auth_locked_out (API_SECRET : string) (authorization : option string)
    (f : M response) (s : state) :
  occurs "Bearer " API_SECRET = true ->
  exists msg,
    require_auth API_SECRET authorization f s = (Ok (unauthorized msg), s).
Proof.
  intros Hocc.
  destruct (require_auth_cases API_SECRET authorization f s)
    as [H|(rest & _ & Hno & _)]; [exact H | congruence].
Qed.

Lemma require_auth_locked_out_witness :
  exists msg,
    require_auth "my Bearer key" (Some "Bearer my Bearer key") index (empty_db, [])
    = (Ok (unauthorized msg), (empty_db, [])).
Proof.
  apply (require_auth_locked_out "my Bearer key" (Some "Bearer my Bearer key")
           index (empty_db, [])).
  reflexivity.
Defined.

(** ** The resolver: a miss *)

Lemma resolve_miss_ok (pf : platform) (w : world) (k : kind) (course_id : string)
    (db : database) (log : list event) (text : string) (d : list (string * json))
    (name n : json) :
  db_fault w Connect = None ->
  db_fault w Select = None ->
  db_fault w Insert = None ->
  rows (cache_table k) db !! cache_key k course_id = None ->
  (k = coordinates -> configured (getenv w "GOLF_API_TOKEN") = true) ->
  upstream w = HttpResponse 200 text (Ok (JObj d)) ->
  lookup_course_name (COURSES w) course_id = Ok name ->
  normalize k (JObj d) = Ok n ->
  exists url authorization sent,
    let param := JStr (json_dumps pf (JObj d)) in
    let t := cache_table k in
    let key := cache_key k course_id in
    let db' := concurrent w db in
    resolve pf w k course_id (db, log)
    = (Ok (jsonify n),
       (set_rows t (<[key := resolver_row pf param (now w) (rows t db') key]>
                      (rows t db')) db',
        (log ++ [Fetched url authorization; Wrote t key param;
                 Notified course_id name (data_type_of k) sent])%list)).
Proof.
  intros Hc Hs Hi Hrow Htoken Hup Hname Hn.
  destruct k; run; rewrite Hc, Hs; revert Hrow; run; intros ->;
    cbv [fmap option_fmap option_map]; [rewrite (Htoken eq_refl); cbv [negb]|];
    rewrite Hup; cbv [Z.eqb Pos.eqb py_get]; rewrite Hi, Hname;
    match goal with
    | |- context [notify ?w' ?a ?b ?c ?e ?f (?db', ?log')] =>
        destruct (notify_run w' a b c e f db' log') as [sent Hsent]; rewrite Hsent
    end;
    cbv [normalize] in Hn; rewrite Hn; rewrite <- !app_assoc; cbn [app];
    unfold resolver_row, set_value;
    do 3 eexists; f_equal; f_equal; f_equal; f_equal;
    match goal with
    | |- context [match ?x with Some _ => _ | None => _ end] => destruct x
    end; reflexivity.
Qed.



(** X5. A status other than 200 is a failure even when it is a 2xx (201,
    204, ..): it is passed on with the text of the answer, and the request
    writes and notifies nothing. *)
Theorem non_200_is_failure (pf : platform) (w : world) (k : kind)
    (course_id : string) (db : database) (log : list event)
    (code : Z) (text : string) (j : result json) :
  db_fault w Connect = None ->
  db_fault w Select = None ->
  rows (cache_table k) db !! cache_key k course_id = None ->
  (k = coordinates -> configured (getenv w "GOLF_API_TOKEN") = true) ->
  upstream w = HttpResponse code text j ->
  code <> 200 ->
  exists url authorization,
    resolve pf w k course_id (db, log)
    = (Ok (upstream_failed code text),
       (concurrent w db, (log ++ [Fetched url authorization])%list)).
Proof.
  intros Hc Hs Hrow Htoken Hup Hcode.
  apply Z.eqb_neq in Hcode.
  destruct k; run; rewrite Hc, Hs; revert Hrow; run; intros ->;
    cbv [fmap option_fmap option_map];
    [rewrite (Htoken eq_refl); cbv [negb]|];
    rewrite Hup, Hcode; do 2 eexists; reflexivity.
Qed.

Lemma non_200_is_failure_witness :
  exists url authorization,
    resolve sample_platform
      (quiet_world ∅ (HttpResponse 204 EmptyString (Ok sample_payload)))
      info "X1" (empty_db, [])
    = (Ok (upstream_failed 204 EmptyString),
       (empty_db, [Fetched url authorization])).
Proof.
  apply (non_200_is_failure sample_platform
           (quiet_world ∅ (HttpResponse 204 EmptyString (Ok sample_payload)))
           info "X1" empty_db [] 204 EmptyString (Ok sample_payload));
    try reflexivity; discriminate.
Defined.

(** X6. When [requests.get] raises, the answer is 500: [{error: 'Failed to
    fetch from Golf API', details}] for a [RequestException], the answer of
    [db_error_handler] for anything else; nothing is written or notified. *)
Theorem transport_failure_is_500 (pf : platform) (w : world) (k : kind)
    (course_id : string) (db : database) (log : list event) (e : pyexn) :
  db_fault w Connect = None ->
  db_fault w Select = None ->
  rows (cache_table k) db !! cache_key k course_id = None ->
  (k = coordinates -> configured (getenv w "GOLF_API_TOKEN") = true) ->
  upstream w = RequestFailed e ->
  exists url authorization,
    resolve pf w k course_id (db, log)
    = (Ok match e with
          | RequestException msg =>
              jsonify_status
                (JObj [("error", JStr "Failed to fetch from Golf API");
                       ("details", JStr msg)]) 500
          | _ => error_response pf e
          end,
       (concurrent w db, (log ++ [Fetched url authorization])%list)).
Proof.
  intros Hc Hs Hrow Htoken Hup.
  destruct k; run; rewrite Hc, Hs; revert Hrow; run; intros ->;
    cbv [fmap option_fmap option_map];
    [rewrite (Htoken eq_refl); cbv [negb]|];
    rewrite Hup; destruct e; do 2 eexists; reflexivity.
Qed.

Lemma transport_failure_is_500_witness :
  exists url authorization,
    resolve sample_platform
      (quiet_world ∅ (RequestFailed (RequestException "timed out")))
      info "X1" (empty_db, [])
    = (Ok (jsonify_status
             (JObj [("error", JStr "Failed to fetch from Golf API");
                    ("details", JStr "timed out")]) 500),
       (empty_db, [Fetched url authorization])).
Proof.
  apply (transport_failure_is_500 sample_platform
           (quiet_world ∅ (RequestFailed (RequestException "timed out")))
           info "X1" empty_db [] (RequestException "timed out"));
    try reflexivity; discriminate.
Defined.

(** X7. A 200 answer that is an object without [coordinates] is cached
    like any other: the first request answers 200 with [{error, holes: []}]
    after writing it, and a later request is served the same answer from
    the cache without going back to the provider. *)
Theorem payload_without_coordinates_is_cached (pf : platform) (w w2 : world)
    (course_id : string) (db : database) (text : string)
    (d : list (string * json)) (name : json) :
  db_fault w Connect = None ->
  db_fault w Select = None ->
  db_fault w Insert = None ->
  poi_rows db !! ("coordinates_" +:+ course_id) = None ->
  configured (getenv w "GOLF_API_TOKEN") = true ->
  upstream w = HttpResponse 200 text (Ok (JObj d)) ->
  lookup_course_name (COURSES w) course_id = Ok name ->
  dict_get "coordinates" d = None ->
  decode_cached pf (stored_as pf (JStr (json_dumps pf (JObj d)))) = Ok (JObj d) ->
  db_fault w2 Connect = None ->
  db_fault w2 Select = None ->
  exists db1 log1,
    resolve pf w coordinates course_id (db, [])
    = (Ok (jsonify invalid_coordinates), (db1, log1))
    /\ In (Wrote course_poi_cache ("coordinates_" +:+ course_id)
             (JStr (json_dumps pf (JObj d)))) log1
    /\ resolve pf w2 coordinates course_id (db1, [])
       = (Ok (jsonify invalid_coordinates), (db1, [])).
Proof.
  intros Hc Hs Hi Hrow Htoken Hup Hname Hd Hdec Hc2 Hs2.
  assert (extract_green_centers (JObj d) = Ok invalid_coordinates) as Hn.
  { unfold extract_green_centers. destruct d as [|kv d']; [reflexivity|].
    cbn [py_truthy negb py_contains mbind result_bind]. rewrite Hd. reflexivity. }
  destruct (resolve_miss_ok pf w coordinates course_id db [] text d name
              invalid_coordinates Hc Hs Hi Hrow (fun _ => Htoken) Hup Hname Hn)
    as (url & authorization & sent & Hrun).
  cbv zeta in Hrun. cbn [app cache_table cache_key rows set_rows] in Hrun.
  eexists. eexists. split; [exact Hrun|]. split; [right; left; reflexivity|].
  erewrite (resolve_hit pf w2 coordinates course_id); [ |exact Hc2|exact Hs2| ].
  2: { cbn [cache_table cache_key rows poi_rows]. apply lookup_insert_eq. }
  unfold cached_response, resolver_row. cbn [value].
  rewrite Hdec. cbn [mbind result_bind normalize]. rewrite Hn. reflexivity.
Qed.

Lemma payload_without_coordinates_is_cached_witness :
  let pf := platform_for (JObj [("message", JStr "no such course")]) in
  let w := quiet_world {[ "GOLF_API_TOKEN" := "secret" ]}
             (HttpResponse 200 "payload"
                (Ok (JObj [("message", JStr "no such course")]))) in
  exists db1 log1,
    resolve pf w coordinates "X9" (empty_db, [])
    = (Ok (jsonify invalid_coordinates), (db1, log1))
    /\ In (Wrote course_poi_cache "coordinates_X9" (JStr "payload")) log1
    /\ resolve pf w coordinates "X9" (db1, [])
       = (Ok (jsonify invalid_coordinates), (db1, [])).
Proof.
  intros pf w.
  apply (payload_without_coordinates_is_cached pf w w "X9" empty_db "payload"
           [("message", JStr "no such course")] (JStr "Unknown Course"));
    reflexivity.
Defined.

(** X8. A cached string that is not JSON is never repaired: for either
    kind the request answers 500 with 'Invalid JSON data in cache', and
    neither fetches nor writes, whatever the token and the provider. *)
Theorem corrupt_entry_is_500 (pf : platform) (w : world) (k : kind)
    (course_id : string) (db : database) (log : list event) (r : row) (s : string) :
  db_fault w Connect = None ->
  db_fault w Select = None ->
  rows (cache_table k) db !! cache_key k course_id = Some r ->
  value r = JStr s ->
  json_loads pf s = None ->
  resolve pf w k course_id (db, log)
  = (Ok (jsonify_status
           (JObj [("error", JStr "Server error");
                  ("details", JStr "Invalid JSON data in cache")]) 500),
     (db, log)).
Proof.
  intros Hc Hs Hrow Hv Hload.
  rewrite (resolve_hit pf w k course_id db log r Hc Hs Hrow).
  unfold cached_response, decode_cached. rewrite Hv, Hload. reflexivity.
Qed.

Lemma corrupt_entry_is_500_witness :
  let pf := {| json_loads := fun _ => None; json_dumps := fun _ => "{}";
               interpreter_message := fun _ => "error";
               stored_as := fun p => p; adapt_key := fun _ => Ok "k" |} in
  let db := {| poi_rows := ∅;
               info_rows := {[ "info_X1" := Row (JStr "{courseID:") 1 ]} |} in
  resolve pf (quiet_world ∅ (RequestFailed TypeError)) info "X1" (db, [])
  = (Ok (jsonify_status
           (JObj [("error", JStr "Server error");
                  ("details", JStr "Invalid JSON data in cache")]) 500),
     (db, [])).
Proof.
  intros pf db.
  apply (corrupt_entry_is_500 pf (quiet_world ∅ (RequestFailed TypeError)) info "X1"
           db [] (Row (JStr "{courseID:") 1) "{courseID:");
    reflexivity.
Defined.

(** X9. When the insertion fails after a 200 answer, the call to the
    provider is spent and nothing is kept: the answer is 500 'Database
    error', no row is written and no notification goes out. *)
Theorem insert_failure_loses_fetch (pf : platform) (w : world) (k : kind)
    (course_id : string) (db : database) (log : list event) (text : string)
    (d : list (string * json)) (msg : string) :
  db_fault w Connect = None ->
  db_fault w Select = None ->
  db_fault w Insert = Some (Psycopg2Error msg) ->
  rows (cache_table k) db !! cache_key k course_id = None ->
  (k = coordinates -> configured (getenv w "GOLF_API_TOKEN") = true) ->
  upstream w = HttpResponse 200 text (Ok (JObj d)) ->
  exists url authorization,
    resolve pf w k course_id (db, log)
    = (Ok (jsonify_status
             (JObj [("error", JStr "Database error"); ("details", JStr msg)]) 500),
       (concurrent w db, (log ++ [Fetched url authorization])%list)).
Proof.
  intros Hc Hs Hi Hrow Htoken Hup.
  destruct k; run; rewrite Hc, Hs; revert Hrow; run; intros ->;
    cbv [fmap option_fmap option_map];
    [rewrite (Htoken eq_refl); cbv [negb]|];
    rewrite Hup; cbv [Z.eqb Pos.eqb py_get]; rewrite Hi;
    do 2 eexists; reflexivity.
Qed.

Lemma insert_failure_loses_fetch_witness :
  let w := {| environ := ∅; COURSES := []; now := 2;
              upstream := HttpResponse 200 "sample_payload" (Ok sample_payload);
              db_fault := fun op => match op with
                                    | Insert => Some (Psycopg2Error "disk full")
                                    | _ => None
                                    end;
              smtp_fault := None; concurrent := fun db => db |} in
  exists url authorization,
    resolve sample_platform w info "X1" (empty_db, [])
    = (Ok (jsonify_status
             (JObj [("error", JStr "Database error");
                    ("details", JStr "disk full")]) 500),
       (empty_db, [Fetched url authorization])).
Proof.
  intros w.
  apply (insert_failure_loses_fetch sample_platform w info "X1" empty_db []
           "sample_payload"
           [("courseID", JStr "X1");
            ("coordinates",
             JArr [JObj [("hole", JInt 1); ("poi", JInt 1); ("location", JInt 2);
                         ("latitude", JFloat (10 # 1));
                         ("longitude", JFloat (20 # 1))]]);
            ("apiRequestsLeft", JStr "42")] "disk full");
    try reflexivity; discriminate.
Defined.

(** X10. When the connection or the [SELECT] fails, the request answers
    with the 500 of [db_error_handler] and stops there: it does not go to
    the provider, so no call is spent. *)
Theorem database_down_no_fetch (pf : platform) (w : world) (k : kind)
    (course_id : string) (s : state) (e : pyexn) :
  db_fault w Connect = Some e \/
  (db_fault w Connect = None /\ db_fault w Select = Some e) ->
  resolve pf w k course_id s = (Ok (error_response pf e), s).
Proof.
  destruct s as [db log].
  intros [Hc|[Hc Hs]]; destruct k; run; rewrite Hc; try rewrite Hs; reflexivity.
Qed.

Lemma database_down_no_fetch_witness :
  let w := {| environ := {[ "GOLF_API_TOKEN" := "secret" ]}; COURSES := []; now := 2;
              upstream := HttpResponse 200 "sample_payload" (Ok sample_payload);
              db_fault := fun _ => Some (Psycopg2Error "connection refused");
              smtp_fault := None; concurrent := fun db => db |} in
  resolve sample_platform w coordinates "X1" (empty_db, [])
  = (Ok (jsonify_status
           (JObj [("error", JStr "Database error");
                  ("details", JStr "connection refused")]) 500),
     (empty_db, [])).
Proof.
  intros w.
  apply (database_down_no_fetch sample_platform w coordinates "X1" (empty_db, [])
           (Psycopg2Error "connection refused")).
  left. reflexivity.
Defined.

(** X11. A request changes nothing but the row of its own pair: the other
    table, and every other key of its table, are as before (for a request
    that runs alone). *)
Theorem resolve_touches_one_key (pf : platform) (w : world) (k : kind)
    (course_id : string) (db : database) (log : list event) :
  concurrent w db = db ->
  let db' := fst (snd (resolve pf w k course_id (db, log))) in
  rows (other_table (cache_table k)) db' = rows (other_table (cache_table k)) db
  /\ forall key' : string,
       key' <> cache_key k course_id ->
       rows (cache_table k) db' !! key' = rows (cache_table k) db !! key'.
Proof.
  intros Halone.
  destruct k; run; cbv [other_table]; rewrite ?Halone;
    repeat first
      [ match goal with
        | |- context [notify ?w' ?a ?b ?c ?d ?e (?db', ?log')] =>
            let sent := fresh "sent" in
            let H := fresh "H" in
            destruct (notify_run w' a b c d e db' log') as [sent H]; rewrite H; clear H
        end
      | branch ];
    cbn [fst snd poi_rows info_rows]; rewrite ?Halone;
    (split; [reflexivity|]); intros key' Hkey';
    rewrite ?lookup_insert_ne by congruence; reflexivity.
Qed.

Lemma resolve_touches_one_key_witness :
  let w := quiet_world {[ "GOLF_API_TOKEN" := "secret" ]}
             (HttpResponse 200 "sample_payload" (Ok sample_payload)) in
  let db := {| poi_rows := {[ "coordinates_X2" := Row (JStr "kept") 1 ]};
               info_rows := {[ "info_X1" := Row (JStr "kept") 1 ]} |} in
  let db' := fst (snd (resolve sample_platform w coordinates "X1" (db, []))) in
  info_rows db' = info_rows db
  /\ poi_rows db' !! "coordinates_X2" = Some (Row (JStr "kept") 1).
Proof.
  intros w db db'.
  destruct (resolve_touches_one_key sample_platform w coordinates "X1" db [] eq_refl)
    as [Hother Hkeys].
  split; [exact Hother|].
  subst db'. cbn [cache_table rows] in Hkeys. rewrite (Hkeys "coordinates_X2").
  - reflexivity.
  - discriminate.
Defined.

(** X12. The cache key tells the pair: two requests share a key only when
    they have the same kind and the same course. *)
Theorem cache_key_injective (k1 k2 : kind) (c1 c2 : string) :
  cache_key k1 c1 = cache_key k2 c2 -> k1 = k2 /\ c1 = c2.
Proof.
  destruct k1, k2; unfold cache_key; intros H.
  - split; [reflexivity|]. exact (inj (String.app "coordinates_") _ _ H).
  - change (String "c" ("oordinates_" +:+ c1) = String "i" ("nfo_" +:+ c2)) in H.
    discriminate H.
  - change (String "i" ("nfo_" +:+ c1) = String "c" ("oordinates_" +:+ c2)) in H.
    discriminate H.
  - split; [reflexivity|]. exact (inj (String.app "info_") _ _ H).
Qed.

Lemma cache_key_injective_witness :
  coordinates = coordinates /\ "ABC123" = "ABC123".
Proof.
  apply (cache_key_injective coordinates coordinates "ABC123" "ABC123").
  reflexivity.
Defined.

(** ** The cache routes *)

Lemma get_cached_run (pf : platform) (w : world) (key : string)
    (db : database) (log : list event) :
  db_fault w Connect = None ->
  db_fault w Select = None ->
  get_cached_course_poi pf w key (db, log)
  = (Ok match poi_rows db !! key with
        | Some r =>
            jsonify (JObj [("key", JStr key); ("value", shown_value pf (value r))])
        | None => jsonify_status (JObj [("error", JStr "Not found")]) 404
        end,
     (db, log)).
Proof.
  intros Hc Hs. unfold get_cached_course_poi. run. rewrite Hc, Hs.
  destruct (poi_rows db !! key) as [r|]; [|reflexivity].
  cbv [fmap option_fmap option_map shown_value decode_cached].
  destruct (value r) as [| | | |s| |]; try reflexivity.
  destruct (json_loads pf s); reflexivity.
Qed.

Lemma store_cached_run (pf : platform) (w : world) (d : list (string * json))
    (key : string) (v : json) (db : database) (log : list event) :
  db_fault w Connect = None ->
  db_fault w Insert = None ->
  dict_get "key" d = Some (JStr key) ->
  dict_get "value" d = Some v ->
  adapt_key pf (JStr key) = Ok key ->
  store_cached_course_poi pf w (JObj d) (db, log)
  = (Ok (jsonify_status (JObj [("success", JBool true); ("key", JStr key)]) 201),
     ({| poi_rows := <[key := {| value := stored_as pf (cache_param pf v);
                                 inserted_at := now w |}]> (poi_rows db);
         info_rows := info_rows db |},
      (log ++ [Wrote course_poi_cache key (cache_param pf v)])%list)).
Proof.
  intros Hc Hi Hkey Hvalue Hadapt. unfold store_cached_course_poi.
  destruct d as [|kv d']; [discriminate|].
  cbn [py_truthy negb py_contains py_getitem].
  rewrite Hkey, Hvalue. rewrite !bool_decide_eq_true_2 by eauto.
  run. cbv [negb]. rewrite Hc, Hadapt, Hi.
  unfold set_value_and_time, cache_param.
  destruct (poi_rows db !! key); destruct v; reflexivity.
Qed.

(** X13. [GET /cache/<key>] only reads: it answers 404 for a key that is
    absent and 200 with the stored value otherwise, where a stored string
    is decoded when it is JSON and shown as it is when it is not (the
    resolver answers 500 on such a row). *)
Theorem cache_get_shows (pf : platform) (w : world) (key : string)
    (db : database) (log : list event) :
  db_fault w Connect = None ->
  db_fault w Select = None ->
  db_error_handler pf (get_cached_course_poi pf w key) (db, log)
  = (Ok match poi_rows db !! key with
        | Some r =>
            jsonify (JObj [("key", JStr key); ("value", shown_value pf (value r))])
        | None => jsonify_status (JObj [("error", JStr "Not found")]) 404
        end,
     (db, log)).
Proof.
  intros Hc Hs. unfold db_error_handler, try_except.
  rewrite (get_cached_run pf w key db log Hc Hs). reflexivity.
Qed.

Lemma cache_get_shows_witness :
  let pf := {| json_loads := fun _ => None; json_dumps := fun _ => "{}";
               interpreter_message := fun _ => "error";
               stored_as := fun p => p; adapt_key := fun _ => Ok "k" |} in
  let db := {| poi_rows := {[ "coordinates_X1" := Row (JStr "{courseID:") 1 ]};
               info_rows := ∅ |} in
  db_error_handler pf
    (get_cached_course_poi pf (quiet_world ∅ (RequestFailed TypeError))
       "coordinates_X1") (db, [])
  = (Ok (jsonify (JObj [("key", JStr "coordinates_X1");
                        ("value", JStr "{courseID:")])), (db, [])).
Proof.
  intros pf db.
  apply (cache_get_shows pf (quiet_world ∅ (RequestFailed TypeError))
           "coordinates_X1" db []); reflexivity.
Defined.

(** X14. [POST /cache] checks the body before it touches the database: a
    body that is falsy, or an object without [key] or without [value], is
    answered 400 and nothing is written, even when the database is down. *)
Theorem cache_post_validates (pf : platform) (w : world) (data : json) (s : state) :
  py_truthy data = false \/
  (exists d, data = JObj d /\
             (dict_get "key" d = None \/ dict_get "value" d = None)) ->
  store_cached_course_poi pf w data s
  = (Ok (jsonify_status (JObj [("error", JStr "Missing key or value")]) 400), s).
Proof.
  unfold store_cached_course_poi.
  intros [Hfalsy|(d & -> & Hmiss)]; [rewrite Hfalsy; reflexivity|].
  destruct d as [|kv d']; [reflexivity|].
  cbn [py_truthy negb py_contains].
  destruct (dict_get "key" (kv :: d')) as [vk|] eqn:Ek.
  - destruct Hmiss as [Hmiss|Hmiss]; [discriminate|]. rewrite Hmiss.
    rewrite (bool_decide_eq_true_2 (is_Some (Some vk))) by eauto.
    rewrite (bool_decide_eq_false_2 (is_Some None)) by (intros [? ?]; discriminate).
    reflexivity.
  - rewrite (bool_decide_eq_false_2 (is_Some None)) by (intros [? ?]; discriminate).
    reflexivity.
Qed.

Lemma cache_post_validates_witness :
  let w := {| environ := ∅; COURSES := []; now := 2;
              upstream := RequestFailed TypeError;
              db_fault := fun _ => Some (Psycopg2Error "connection refused");
              smtp_fault := None; concurrent := fun db => db |} in
  store_cached_course_poi sample_platform w
    (JObj [("key", JStr "coordinates_X1")]) (empty_db, [])
  = (Ok (jsonify_status (JObj [("error", JStr "Missing key or value")]) 400),
     (empty_db, [])).
Proof.
  intros w.
  apply (cache_post_validates sample_platform w
           (JObj [("key", JStr "coordinates_X1")]) (empty_db, [])).
  right. exists [("key", JStr "coordinates_X1")].
  split; [reflexivity | right; reflexivity].
Defined.

(** X15. An accepted [POST /cache] answers 201 with the key and leaves
    under the key one row with the value (objects and lists as JSON text)
    and the time of the call, whatever was there before; the other keys
    and the info table are as before. *)
Theorem cache_post_upserts (pf : platform) (w : world) (d : list (string * json))
    (key : string) (v : json) (db : database) (log : list event) :
  db_fault w Connect = None ->
  db_fault w Insert = None ->
  dict_get "key" d = Some (JStr key) ->
  dict_get "value" d = Some v ->
  adapt_key pf (JStr key) = Ok key ->
  store_cached_course_poi pf w (JObj d) (db, log)
  = (Ok (jsonify_status (JObj [("success", JBool true); ("key", JStr key)]) 201),
     ({| poi_rows := <[key := {| value := stored_as pf (cache_param pf v);
                                 inserted_at := now w |}]> (poi_rows db);
         info_rows := info_rows db |},
      (log ++ [Wrote course_poi_cache key (cache_param pf v)])%list)).
Proof. apply store_cached_run. Qed.

Lemma cache_post_upserts_witness :
  store_cached_course_poi sample_platform (quiet_world ∅ (RequestFailed TypeError))
    (JObj [("key", JStr "note"); ("value", JInt 7)])
    ({| poi_rows := {[ "note" := Row (JStr "old") 1 ]}; info_rows := ∅ |}, [])
  = (Ok (jsonify_status (JObj [("success", JBool true); ("key", JStr "note")]) 201),
     ({| poi_rows := <["note" := Row (JInt 7) 2]> {[ "note" := Row (JStr "old") 1 ]};
         info_rows := ∅ |},
      [Wrote course_poi_cache "note" (JInt 7)])).
Proof.
  exact (cache_post_upserts sample_platform (quiet_world ∅ (RequestFailed TypeError))
           [("key", JStr "note"); ("value", JInt 7)] "note" (JInt 7)
           {| poi_rows := {[ "note" := Row (JStr "old") 1 ]}; info_rows := ∅ |} []
           eq_refl eq_refl eq_refl eq_refl eq_refl).
Defined.

(** X16. With a [value] column of type text and a codec that is right on
    [v], an object or a list sent to [POST /cache] comes back unchanged
    from [GET /cache/<key>]. *)
Theorem cache_round_trip (pf : platform) (w w2 : world) (d : list (string * json))
    (key : string) (v : json) (db : database) :
  db_fault w Connect = None -> db_fault w Insert = None ->
  db_fault w2 Connect = None -> db_fault w2 Select = None ->
  dict_get "key" d = Some (JStr key) ->
  dict_get "value" d = Some v ->
  adapt_key pf (JStr key) = Ok key ->
  is_container v = true ->
  stored_as pf (JStr (json_dumps pf v)) = JStr (json_dumps pf v) ->
  json_loads pf (json_dumps pf v) = Some v ->
  exists s1,
    store_cached_course_poi pf w (JObj d) (db, [])
    = (Ok (jsonify_status (JObj [("success", JBool true); ("key", JStr key)]) 201), s1)
    /\ get_cached_course_poi pf w2 key s1
       = (Ok (jsonify (JObj [("key", JStr key); ("value", v)])), s1).
Proof.
  intros Hc Hi Hc2 Hs2 Hkey Hvalue Hadapt Hv Htext Hcodec.
  eexists. split; [apply store_cached_run; eassumption|].
  rewrite (get_cached_run pf w2 key _ _ Hc2 Hs2).
  cbn [poi_rows]. rewrite lookup_insert_eq. cbn [value].
  destruct v; try discriminate; unfold cache_param, shown_value;
    rewrite Htext, Hcodec; reflexivity.
Qed.

Lemma cache_round_trip_witness :
  let w := quiet_world ∅ (RequestFailed TypeError) in
  exists s1,
    store_cached_course_poi sample_platform w
      (JObj [("key", JStr "coordinates_X1"); ("value", sample_payload)]) (empty_db, [])
    = (Ok (jsonify_status
             (JObj [("success", JBool true); ("key", JStr "coordinates_X1")]) 201), s1)
    /\ get_cached_course_poi sample_platform w "coordinates_X1" s1
       = (Ok (jsonify (JObj [("key", JStr "coordinates_X1");
                             ("value", sample_payload)])), s1).
Proof.
  intros w.
  apply (cache_round_trip sample_platform w w
           [("key", JStr "coordinates_X1"); ("value", sample_payload)]
           "coordinates_X1" sample_payload empty_db); reflexivity.
Defined.

(** X17. A string sent to [POST /cache] is stored as it is, and
    [GET /cache/<key>] decodes it when it happens to be JSON text: what
    comes back is the decoded value, not the string. *)
Theorem cache_string_comes_back_decoded (pf : platform) (w w2 : world)
    (d : list (string * json)) (key s : string) (j : json) (db : database) :
  db_fault w Connect = None -> db_fault w Insert = None ->
  db_fault w2 Connect = None -> db_fault w2 Select = None ->
  dict_get "key" d = Some (JStr key) ->
  dict_get "value" d = Some (JStr s) ->
  adapt_key pf (JStr key) = Ok key ->
  stored_as pf (JStr s) = JStr s ->
  json_loads pf s = Some j ->
  exists s1,
    store_cached_course_poi pf w (JObj d) (db, [])
    = (Ok (jsonify_status (JObj [("success", JBool true); ("key", JStr key)]) 201), s1)
    /\ get_cached_course_poi pf w2 key s1
       = (Ok (jsonify (JObj [("key", JStr key); ("value", j)])), s1).
Proof.
  intros Hc Hi Hc2 Hs2 Hkey Hvalue Hadapt Htext Hload.
  eexists. split; [apply store_cached_run; eassumption|].
  rewrite (get_cached_run pf w2 key _ _ Hc2 Hs2).
  cbn [poi_rows]. rewrite lookup_insert_eq. cbn [value].
  unfold cache_param, shown_value. rewrite Htext, Hload. reflexivity.
Qed.

Lemma cache_string_comes_back_decoded_witness :
  let pf := platform_for (JInt 42) in
  let w := quiet_world ∅ (RequestFailed TypeError) in
  exists s1,
    store_cached_course_poi pf w
      (JObj [("key", JStr "answer"); ("value", JStr "42")]) (empty_db, [])
    = (Ok (jsonify_status
             (JObj [("success", JBool true); ("key", JStr "answer")]) 201), s1)
    /\ get_cached_course_poi pf w "answer" s1
       = (Ok (jsonify (JObj [("key", JStr "answer"); ("value", JInt 42)])), s1).
Proof.
  intros pf w.
  apply (cache_string_comes_back_decoded pf w w
           [("key", JStr "answer"); ("value", JStr "42")] "answer" "42" (JInt 42)
           empty_db); reflexivity.
Defined.

(** X18. [POST /cache] writes [course_poi_cache] only. A value stored
    under [coordinates_<id>] is what the next request for the coordinates
    of [id] is served, without a fetch; the info table is untouched, so a
    value stored under [info_<id>] is never seen by the requests for info. *)
Theorem cache_post_seeds_coordinates_only (pf : platform) (w w2 : world)
    (d : list (string * json)) (key : string) (v : json) (db : database) :
  db_fault w Connect = None -> db_fault w Insert = None ->
  db_fault w2 Connect = None -> db_fault w2 Select = None ->
  dict_get "key" d = Some (JStr key) ->
  dict_get "value" d = Some v ->
  adapt_key pf (JStr key) = Ok key ->
  exists db1 log1,
    store_cached_course_poi pf w (JObj d) (db, [])
    = (Ok (jsonify_status (JObj [("success", JBool true); ("key", JStr key)]) 201),
       (db1, log1))
    /\ (forall course_id, key = cache_key coordinates course_id ->
          resolve pf w2 coordinates course_id (db1, [])
          = (Ok (cached_response pf coordinates (stored_as pf (cache_param pf v))),
             (db1, [])))
    /\ info_rows db1 = info_rows db.
Proof.
  intros Hc Hi Hc2 Hs2 Hkey Hvalue Hadapt.
  eexists. eexists. split; [apply store_cached_run; eassumption|].
  split; [|reflexivity].
  intros course_id ->.
  rewrite (resolve_hit pf w2 coordinates course_id _ []
             {| value := stored_as pf (cache_param pf v); inserted_at := now w |}
             Hc2 Hs2); [reflexivity|].
  cbn [cache_table rows poi_rows]. apply lookup_insert_eq.
Qed.

Lemma cache_post_seeds_coordinates_only_witness :
  let w := quiet_world ∅ (RequestFailed TypeError) in
  exists db1 log1,
    store_cached_course_poi sample_platform w
      (JObj [("key", JStr "coordinates_X1"); ("value", sample_payload)]) (empty_db, [])
    = (Ok (jsonify_status
             (JObj [("success", JBool true); ("key", JStr "coordinates_X1")]) 201),
       (db1, log1))
    /\ (forall course_id, "coordinates_X1" = cache_key coordinates course_id ->
          resolve sample_platform w coordinates course_id (db1, [])
          = (Ok (cached_response sample_platform coordinates
                   (stored_as sample_platform
                      (cache_param sample_platform sample_payload))),
             (db1, [])))
    /\ info_rows db1 = info_rows empty_db.
Proof.
  intros w.
  apply (cache_post_seeds_coordinates_only sample_platform w w
           [("key", JStr "coordinates_X1"); ("value", sample_payload)]
           "coordinates_X1" sample_payload empty_db); reflexivity.
Defined.

(** ** The connection pool *)

(** X19. Once [get_db_connection] has returned a connection, a further
    call returns the same connection and does not connect again, whether a
    new connection could be made or not. *)
Theorem pool_connection_reused (fault1 fault2 : option pyexn) (st st1 : Pool.pool)
    (c : Pool.connection) :
  Pool.get_db_connection fault1 st = (Ok c, st1) ->
  Pool.get_db_connection fault2 st1 = (Ok c, st1)
  /\ Pool.conn_pool st1 = Some c
  /\ (Pool.connects st1 <= S (Pool.connects st))%nat.
Proof.
  unfold Pool.get_db_connection, Pool.connect.
  destruct (Pool.conn_pool st) as [c0|] eqn:Epool.
  - destruct (Pool.closed c0) eqn:Eclosed.
    + destruct fault1; [discriminate|]. intros [= <- <-].
      cbn [Pool.conn_pool Pool.closed Pool.connects]. auto.
    + intros [= <- <-]. rewrite Epool, Eclosed. auto.
  - destruct fault1; [discriminate|]. intros [= <- <-].
    cbn [Pool.conn_pool Pool.closed Pool.connects]. auto.
Qed.

Lemma pool_connection_reused_witness :
  let st := {| Pool.conn_pool := None; Pool.connects := 0 |} in
  let c := {| Pool.conn_id := 0; Pool.closed := false; Pool.autocommit := true |} in
  Pool.get_db_connection (Some (Psycopg2Error "too many clients"))
    {| Pool.conn_pool := Some c; Pool.connects := 1 |}
  = (Ok c, {| Pool.conn_pool := Some c; Pool.connects := 1 |}).
Proof.
  intros st c.
  apply (pool_connection_reused None (Some (Psycopg2Error "too many clients")) st
           {| Pool.conn_pool := Some c; Pool.connects := 1 |} c).
  reflexivity.
Defined.

(** X20. The teardown closes and forgets an open connection, so the call
    after it makes a new connection, in autocommit mode; a teardown after a
    teardown changes nothing. *)
Theorem pool_teardown_reconnects (st : Pool.pool) :
  let st' := Pool.close_db_connection st in
  Pool.close_db_connection st' = st'
  /\ exists c,
       Pool.get_db_connection None st'
       = (Ok c, {| Pool.conn_pool := Some c; Pool.connects := S (Pool.connects st) |})
       /\ Pool.conn_id c = Pool.connects st
       /\ Pool.closed c = false
       /\ Pool.autocommit c = true.
Proof.
  unfold Pool.close_db_connection, Pool.get_db_connection, Pool.connect.
  destruct st as [[c0|] n]; cbn [Pool.conn_pool Pool.connects].
  - destruct (Pool.closed c0) eqn:E; cbn [negb Pool.conn_pool Pool.connects].
    + rewrite E. cbn [negb]. split; [reflexivity|].
      eexists. split; [reflexivity|]. auto.
    + split; [reflexivity|]. eexists. split; [reflexivity|]. auto.
  - split; [reflexivity|]. eexists. split; [reflexivity|]. auto.
Qed.

(** ** The mail *)






Lemma seven_bit_append (s t : string) :
  seven_bit (s +:+ t) = seven_bit s && seven_bit t.
Proof.
  unfold seven_bit. induction s as [|c s IH]; [reflexivity|].
  rewrite append_cons. cbn [String.list_ascii_of_string forallb].
  rewrite IH, andb_assoc. reflexivity.
Qed.

Lemma seven_bit_ascii_only (s : string) : seven_bit (ascii_only s) = true.
Proof.
  unfold seven_bit, ascii_only. induction s as [|c s IH]; [reflexivity|].
  cbn [filter_chars].
  destruct (nat_of_ascii c <? 128)%nat eqn:E; [|exact IH].
  cbn [String.list_ascii_of_string forallb]. rewrite E. exact IH.
Qed.

(** X23. The subject and the file name of a mail that goes out for the
    resolver are ASCII, whatever the course name and the course id hold. *)
Theorem mail_headers_ascii (w : world) (k : kind) (course_id : string)
    (course_name course_data quota : json) (msg : email) :
  send_course_email w course_id course_name course_data (data_type_of k) quota
  = Ok (Some msg) ->
  seven_bit (subject msg) = true /\ seven_bit (filename msg) = true.
Proof.
  unfold send_course_email.
  match goal with |- context [if ?b then _ else _] => destruct b end;
    [discriminate|].
  unfold compose_email, smtp_send.
  destruct course_name as [| | | |name| |]; cbn [mbind result_bind];
    try discriminate.
  destruct (smtp_fault w); [discriminate|].
  intros [= <-]. cbn [subject filename].
  rewrite !seven_bit_append, !seven_bit_ascii_only.
  destruct k; split; reflexivity.
Qed.

Lemma mail_headers_ascii_witness :
  let w := quiet_world {[ "GMAIL_USER" := "me@example.org";
                          "GMAIL_APP_PASSWORD" := "abcd efgh";
                          "RECIPIENT_EMAIL" := "you@example.org" ]}
             (RequestFailed TypeError) in
  exists msg,
    send_course_email w "X1" (JStr "Pebble Beach") sample_payload "POI" (JStr "42")
    = Ok (Some msg)
    /\ seven_bit (subject msg) = true /\ seven_bit (filename msg) = true.
Proof.
  intros w. eexists. split; [reflexivity|].
  apply (mail_headers_ascii w coordinates "X1" (JStr "Pebble Beach") sample_payload
           (JStr "42")).
  reflexivity.
Defined.

(** ** The normalisers: what the entries contribute *)

Lemma process_coords_filter (hd : holes_dict) (cs : list json) :
  Forall (fun c => is_object c = true) cs ->
  process_coords hd cs = process_coords hd (List.filter is_green cs).
Proof.
  intros Hcs. revert hd. induction Hcs as [|c cs Hc _ IH]; intros hd; [reflexivity|].
  cbn [process_coords List.filter]. destruct (is_green c) eqn:Hg.
  - cbn [process_coords]. destruct (process_coord hd c) as [hd'|e]; [|reflexivity].
    cbn [mbind result_bind]. apply IH.
  - rewrite (process_coord_skip hd c Hc Hg). cbn [mbind result_bind]. apply IH.
Qed.

(** X24. Only the entries of greens count: leaving out of [coordinates]
    every entry that fails the filter (tees, bunkers, ..) changes neither
    the answer nor the exception of [extract_green_centers]. *)
Theorem extract_green_centers_ignores_others (d : list (string * json))
    (cs : list json) :
  dict_get "coordinates" d = Some (JArr cs) ->
  Forall (fun c => is_object c = true) cs ->
  extract_green_centers (JObj (dict_set "coordinates" (JArr (List.filter is_green cs)) d))
  = extract_green_centers (JObj d).
Proof.
  intros Hd Hcs. unfold extract_green_centers.
  destruct d as [|kv d'] eqn:Ed; [discriminate|]. rewrite <- Ed in *.
  assert (py_truthy (JObj (dict_set "coordinates" (JArr (List.filter is_green cs)) d))
          = true) as ->.
  { rewrite Ed. destruct kv as [k' v']. cbn [dict_set].
    destruct (String.eqb "coordinates" k'); reflexivity. }
  assert (py_truthy (JObj d) = true) as -> by (rewrite Ed; reflexivity).
  cbn [negb py_contains py_get mbind result_bind].
  rewrite dict_get_set_eq, Hd, (dict_get_set_ne "courseID" "coordinates") by discriminate.
  rewrite !bool_decide_eq_true_2 by eauto.
  cbn [default from_option id py_iter mbind result_bind negb].
  rewrite <- process_coords_filter by exact Hcs. reflexivity.
Qed.

Lemma extract_green_centers_ignores_others_witness :
  extract_green_centers
    (JObj (dict_set "coordinates" (JArr (List.filter is_green sample_greens))
             [("coordinates", JArr sample_greens)]))
  = extract_green_centers (JObj [("coordinates", JArr sample_greens)]).
Proof.
  apply (extract_green_centers_ignores_others
           [("coordinates", JArr sample_greens)] sample_greens).
  - reflexivity.
  - repeat constructor.
Defined.

Lemma process_coords_app (hd : holes_dict) (a b : list json) :
  process_coords hd (a ++ b)
  = (hd' ← process_coords hd a; process_coords hd' b).
Proof.
  revert hd. induction a as [|c a IH]; intros hd; [reflexivity|].
  cbn [app process_coords]. destruct (process_coord hd c) as [hd'|e]; [|reflexivity].
  cbn [mbind result_bind]. apply IH.
Qed.

(** X25. An item of [coordinates] that is not an object makes
    [extract_green_centers] raise [AttributeError] (a 500 for the request),
    whatever well-formed items come before and whatever comes after. *)
Theorem extract_green_centers_bad_item (d : list (string * json))
    (before after : list json) (c : json) :
  dict_get "coordinates" d = Some (JArr (before ++ c :: after)) ->
  Forall (fun x => coordinate_item x = true) before ->
  is_object c = false ->
  extract_green_centers (JObj d) = Raise AttributeError.
Proof.
  intros Hd Hbefore Hc. unfold extract_green_centers.
  destruct d as [|kv d']; [discriminate|].
  cbn [py_truthy negb py_contains py_get mbind result_bind].
  rewrite Hd. rewrite bool_decide_eq_true_2 by eauto.
  cbn [default from_option id py_iter mbind result_bind negb].
  rewrite process_coords_app.
  destruct (process_coords_inv before [] [] holes_inv_nil Hbefore) as (hd & -> & _).
  cbn [mbind result_bind process_coords].
  destruct c; try discriminate; reflexivity.
Qed.

Lemma extract_green_centers_bad_item_witness :
  extract_green_centers
    (JObj [("coordinates", JArr (sample_greens ++ [JNull]))])
  = Raise AttributeError.
Proof.
  apply (extract_green_centers_bad_item
           [("coordinates", JArr (sample_greens ++ [JNull]))] sample_greens [] JNull).
  - reflexivity.
  - repeat constructor.
  - reflexivity.
Defined.

(** X26. [extract_pars] accepts objects only: a payload that is truthy and
    not an object (a list, a string, a number, [true]) raises
    [AttributeError], and every falsy payload gives [{error}]. *)
Theorem extract_pars_non_object (info_data : json) :
  is_object info_data = false ->
  extract_pars info_data
  = if py_truthy info_data then Raise AttributeError
    else Ok (JObj [("error", JStr invalid_format)]).
Proof.
  intros H. unfold extract_pars.
  destruct (py_truthy info_data); [|reflexivity].
  destruct info_data; try discriminate; reflexivity.
Qed.

Lemma extract_pars_non_object_witness :
  extract_pars (JArr [JInt 4; JInt 3; JInt 5]) = Raise AttributeError.
Proof.
  apply (extract_pars_non_object (JArr [JInt 4; JInt 3; JInt 5])). reflexivity.
Defined.

(** ** The normalisers: the shape of a hole entry *)

Lemma dict_get_set_is_Some (k f : string) (v : json) (e : list (string * json)) :
  is_Some (dict_get k (dict_set f v e)) -> k = f \/ is_Some (dict_get k e).
Proof.
  destruct (string_dec k f) as [->|Hne]; [auto|].
  rewrite dict_get_set_ne by exact Hne. auto.
Qed.

Lemma hole_entry_set (f : string) (v : json) (e : list (string * json)) :
  In f hole_fields -> hole_entry e -> hole_entry (dict_set f v e).
Proof.
  intros Hf [Hnum Hkeys]. split.
  - destruct (string_dec "holeNumber" f) as [<-|Hne].
    + rewrite dict_get_set_eq. eauto.
    + rewrite dict_get_set_ne by exact Hne. exact Hnum.
  - intros k Hk. destruct (dict_get_set_is_Some k f v e Hk) as [->|Hk'];
      [exact Hf | apply Hkeys; exact Hk'].
Qed.

Lemma hd_set_field_entries (k : json) (f : string) (v : json) (hd : holes_dict) :
  In f hole_fields ->
  Forall (fun kv => hole_entry (snd kv)) hd ->
  Forall (fun kv => hole_entry (snd kv)) (hd_set_field k f v hd).
Proof.
  intros Hf. induction 1 as [|[k0 e0] hd He Hhd IH]; [constructor|].
  cbn [hd_set_field]. destruct (py_key_eq k k0).
  - constructor; [cbn [snd] in *; apply hole_entry_set; assumption | assumption].
  - constructor; assumption.
Qed.

Lemma process_coord_entries (hd hd' : holes_dict) (c : json) :
  process_coord hd c = Ok hd' ->
  Forall (fun kv => hole_entry (snd kv)) hd ->
  Forall (fun kv => hole_entry (snd kv)) hd'.
Proof.
  intros Hrun Hhd. revert Hrun. unfold process_coord.
  destruct (py_get c "poi" JNull) as [poi|]; [|discriminate].
  cbn [mbind result_bind].
  destruct (py_eq_int poi 1); cbn [negb]; [|intros [= <-]; exact Hhd].
  destruct (py_get c "location" JNull) as [loc|]; [|discriminate].
  cbn [mbind result_bind].
  destruct (existsb (py_eq_int loc) [1; 2; 3]); cbn [negb]; [|intros [= <-]; exact Hhd].
  destruct (py_get c "hole" JNull) as [hole|]; [|discriminate].
  cbn [mbind result_bind].
  destruct (hd_contains hole hd) as [present|]; [|discriminate].
  cbn [mbind result_bind].
  set (hd1 := if present then hd
              else (hd ++ [(hole, [("holeNumber", hole)])])%list).
  assert (Forall (fun kv => hole_entry (snd kv)) hd1) as Hhd1.
  { subst hd1. destruct present; [exact Hhd|].
    apply Forall_app. split; [exact Hhd|]. constructor; [|constructor].
    cbn [snd]. split; [cbn; eauto|].
    intros k Hk. cbn [dict_get] in Hk.
    destruct (String.eqb k "holeNumber") eqn:E; [|destruct Hk; discriminate].
    apply String.eqb_eq in E. subst k. left. reflexivity. }
  destruct (hd_getitem hole hd1); [|discriminate].
  cbn [mbind result_bind].
  destruct (py_get c "latitude" JNull); [|discriminate].
  destruct (py_get c "longitude" JNull); [|discriminate].
  cbn [mbind result_bind].
  destruct (py_eq_int loc 1);
    [intros [= <-]; apply hd_set_field_entries; [cbn; auto | exact Hhd1]|].
  destruct (py_eq_int loc 2);
    [intros [= <-]; apply hd_set_field_entries; [cbn; auto | exact Hhd1]|].
  destruct (py_eq_int loc 3);
    [intros [= <-]; apply hd_set_field_entries; [cbn; auto 6 | exact Hhd1]|].
  intros [= <-]. exact Hhd1.
Qed.

Lemma process_coords_entries (cs : list json) (hd hd' : holes_dict) :
  process_coords hd cs = Ok hd' ->
  Forall (fun kv => hole_entry (snd kv)) hd ->
  Forall (fun kv => hole_entry (snd kv)) hd'.
Proof.
  revert hd. induction cs as [|c cs IH]; intros hd; cbn [process_coords].
  - intros [= <-] H. exact H.
  - destruct (process_coord hd c) as [hd1|] eqn:E; [|discriminate].
    cbn [mbind result_bind]. intros Hrun Hhd.
    apply (IH hd1 Hrun). eapply process_coord_entries; eassumption.
Qed.

Lemma hd_lookup_In (k : json) (hd : holes_dict) (e : list (string * json)) :
  hd_lookup k hd = Some e -> exists k', In (k', e) hd.
Proof.
  induction hd as [|[k0 e0] hd IH]; [discriminate|].
  cbn [hd_lookup]. destruct (py_key_eq k k0).
  - intros [= <-]. exists k0. left. reflexivity.
  - intros H. destruct (IH H) as [k' Hin]. exists k'. right. exact Hin.
Qed.

Lemma holes_in_order_entries (hd : holes_dict) (keys hs : list json) :
  holes_in_order hd keys = Ok hs ->
  Forall (fun kv => hole_entry (snd kv)) hd ->
  forall h, In h hs -> exists e, h = JObj e /\ hole_entry e.
Proof.
  intros Hrun Hhd. revert hs Hrun.
  induction keys as [|k keys IH]; intros hs; cbn [holes_in_order].
  - intros [= <-] h [].
  - unfold hd_getitem. destruct (hashable k); [|discriminate].
    destruct (hd_lookup k hd) as [e|] eqn:E; [|discriminate].
    cbn [mbind result_bind].
    destruct (holes_in_order hd keys) as [es|]; [|discriminate].
    cbn [mbind result_bind]. intros [= <-] h [<-|Hin].
    + exists e. split; [reflexivity|].
      destruct (hd_lookup_In k hd e E) as [k' Hin].
      rewrite Forall_forall in Hhd.
      exact (Hhd (k', e) (proj2 (list_elem_of_In _ _) Hin)).
    + exact (IH es eq_refl h Hin).
Qed.

(** X27. Whatever the payload, when [extract_green_centers] returns, every
    item of [holes] is an object that has [holeNumber] and no field other
    than [holeNumber], [frontOfGreen], [centerOfGreen] and [backOfGreen]. *)
Theorem extract_green_centers_entry_shape (j r : json) (hs : list json) :
  extract_green_centers j = Ok r ->
  field "holes" r = JArr hs ->
  forall h, In h hs -> exists e, h = JObj e /\ hole_entry e.
Proof.
  unfold extract_green_centers.
  destruct (py_truthy j); cbn [negb];
    [|intros [= <-] [= <-] h []].
  destruct (py_contains "coordinates" j) as [[|]|]; cbn [mbind result_bind negb];
    [|intros [= <-] [= <-] h []|discriminate].
  destruct (py_get j "coordinates" (JArr [])) as [coordinates|]; [|discriminate].
  cbn [mbind result_bind].
  destruct (py_iter coordinates) as [cs|]; [|discriminate].
  cbn [mbind result_bind].
  destruct (process_coords [] cs) as [hd|] eqn:Erun; [|discriminate].
  cbn [mbind result_bind].
  destruct (py_sorted (map fst hd)) as [keys|]; [|discriminate].
  cbn [mbind result_bind].
  destruct (holes_in_order hd keys) as [hl|] eqn:Eorder; [|discriminate].
  cbn [mbind result_bind].
  destruct (py_get j "courseID" (JStr EmptyString)); [|discriminate].
  cbn [mbind result_bind].
  intros [= <-] [= <-].
  apply (holes_in_order_entries hd keys hl Eorder).
  apply (process_coords_entries cs [] hd Erun). constructor.
Qed.

Lemma extract_green_centers_entry_shape_witness :
  exists e,
    JObj [("holeNumber", JInt 1);
          ("centerOfGreen",
           JObj [("latitude", JFloat (10 # 1)); ("longitude", JFloat (20 # 1))])]
    = JObj e /\ hole_entry e.
Proof.
  apply (extract_green_centers_entry_shape sample_payload
           (JObj [("courseID", JStr "X1");
                  ("holes",
                   JArr [JObj [("holeNumber", JInt 1);
                               ("centerOfGreen",
                                JObj [("latitude", JFloat (10 # 1));
                                      ("longitude", JFloat (20 # 1))])]]);
                  ("count", JInt 1)])
           [JObj [("holeNumber", JInt 1);
                  ("centerOfGreen",
                   JObj [("latitude", JFloat (10 # 1));
                         ("longitude", JFloat (20 # 1))])]]).
  - reflexivity.
  - reflexivity.
  - left. reflexivity.
Defined.

(** ** The normalisers: an entry of a green without its hole *)

Lemma py_key_eq_simple (h k : json) :
  null_or_int h = true -> null_or_int k = true ->
  (py_key_eq h k = true <-> h = k).
Proof.
  destruct h, k; try discriminate; intros _ _.
  - split; reflexivity.
  - split; discriminate.
  - split; discriminate.
  - rewrite py_key_eq_JInt, Z.eqb_eq. split; congruence.
Qed.

Lemma hd_lookup_simple (h : json) (hd : holes_dict) :
  null_or_int h = true ->
  Forall (fun kv => null_or_int (fst kv) = true) hd ->
  is_Some (hd_lookup h hd) -> In h (map fst hd).
Proof.
  intros Hh. induction 1 as [|[k0 e0] hd Hk Hhd IH]; [intros [? ?]; discriminate|].
  cbn [hd_lookup map fst In]. cbn [fst] in Hk.
  destruct (py_key_eq h k0) eqn:E.
  - intros _. left. symmetry. apply (py_key_eq_simple h k0 Hh Hk). exact E.
  - intros H. right. apply IH. exact H.
Qed.

Lemma process_coord_green_simple (hd : holes_dict) (c h : json) (l : Z) :
  is_object c = true -> is_green c = true ->
  field "hole" c = h -> null_or_int h = true ->
  In l [1; 2; 3] -> py_eq_int (field "location" c) l = true ->
  process_coord hd c
  = Ok (hd_set_field h (green_field l) (point_of c)
          (if bool_decide (is_Some (hd_lookup h hd)) then hd
           else (hd ++ [(h, [("holeNumber", h)])])%list)).
Proof.
  destruct c as [| | | | | |d]; try discriminate. intros _ Hgreen Hhole Hh Hl Hloc.
  pose proof Hgreen as Hg. unfold is_green in Hg.
  apply andb_true_iff in Hg as [Hpoi Hlocs].
  unfold process_coord, point_of. unfold field in *.
  cbn [py_get mbind result_bind].
  rewrite Hpoi, Hlocs, Hhole. cbn [negb].
  assert (hashable h = true) as Hhash by (destruct h; try discriminate; reflexivity).
  unfold hd_contains, hd_getitem. rewrite Hhash. cbn [mbind result_bind].
  set (hd1 := if bool_decide (is_Some (hd_lookup h hd)) then hd
              else (hd ++ [(h, [("holeNumber", h)])])%list).
  assert (is_Some (hd_lookup h hd1)) as [e1 He1].
  { subst hd1. case_bool_decide as Hpresent; [exact Hpresent|].
    rewrite hd_lookup_app. destruct (hd_lookup h hd); [eauto|].
    rewrite (proj2 (py_key_eq_simple h h Hh Hh) eq_refl). eauto. }
  rewrite He1. cbn [mbind result_bind].
  assert (forall l', py_eq_int (default JNull (dict_get "location" d)) l'
                     = Z.eqb l' l) as Hchoice.
  { intros l'. destruct (Z.eqb l' l) eqn:E.
    - apply Z.eqb_eq in E. subst l'. exact Hloc.
    - apply Z.eqb_neq in E.
      destruct (py_eq_int (default JNull (dict_get "location" d)) l') eqn:E';
        [|reflexivity].
      exfalso. apply E. eapply py_eq_int_unique; eassumption. }
  rewrite !Hchoice.
  cbn [In] in Hl. destruct Hl as [<-|[<-|[<-|[]]]]; reflexivity.
Qed.

Lemma hd_set_field_simple (k : json) (f : string) (v : json) (hd : holes_dict) :
  Forall (fun kv => null_or_int (fst kv) = true) hd ->
  Forall (fun kv => null_or_int (fst kv) = true) (hd_set_field k f v hd).
Proof.
  induction 1 as [|[k0 e0] hd Hk Hhd IH]; [constructor|].
  cbn [hd_set_field]. destruct (py_key_eq k k0); constructor; assumption.
Qed.

Lemma process_coords_keys (cs : list json) (hd : holes_dict) :
  Forall (fun c => is_object c = true /\
                   (is_green c = true -> null_or_int (field "hole" c) = true)) cs ->
  Forall (fun kv => null_or_int (fst kv) = true) hd ->
  exists hd',
    process_coords hd cs = Ok hd' /\
    (forall k, In k (map fst hd) -> In k (map fst hd')) /\
    (forall c, In c cs -> is_green c = true -> In (field "hole" c) (map fst hd')).
Proof.
  intros Hcs. revert hd.
  induction Hcs as [|c cs [Hobj Hhole] _ IH]; intros hd Hhd.
  - exists hd. split; [reflexivity|]. split; [auto | intros c []].
  - cbn [process_coords]. destruct (is_green c) eqn:Hg.
    + specialize (Hhole eq_refl).
      destruct (green_location c Hg) as (l & Hl & Hloc).
      rewrite (process_coord_green_simple hd c (field "hole" c) l
                 Hobj Hg eq_refl Hhole Hl Hloc).
      cbn [mbind result_bind].
      set (h := field "hole" c) in *.
      set (hd1 := if bool_decide (is_Some (hd_lookup h hd)) then hd
                  else (hd ++ [(h, [("holeNumber", h)])])%list).
      assert (Forall (fun kv => null_or_int (fst kv) = true) hd1) as Hhd1.
      { subst hd1. case_bool_decide; [exact Hhd|].
        apply Forall_app. split; [exact Hhd|]. constructor; [exact Hhole | constructor]. }
      assert (forall k, In k (map fst hd) -> In k (map fst hd1)) as Hmono.
      { intros k Hk. subst hd1. case_bool_decide; [exact Hk|].
        rewrite map_app. apply in_or_app. left. exact Hk. }
      assert (In h (map fst hd1)) as Hin.
      { subst hd1. case_bool_decide as Hp.
        - apply hd_lookup_simple; assumption.
        - rewrite map_app. apply in_or_app. right. left. reflexivity. }
      destruct (IH (hd_set_field h (green_field l) (point_of c) hd1))
        as (hd' & Hrun & Hkeys & Hgreens).
      { apply hd_set_field_simple. exact Hhd1. }
      rewrite hd_set_field_keys in Hkeys.
      exists hd'. split; [exact Hrun|]. split; [auto|].
      intros c' [<-|Hc'] Hg'; [apply Hkeys; exact Hin | apply Hgreens; assumption].
    + rewrite (process_coord_skip hd c Hobj Hg). cbn [mbind result_bind].
      destruct (IH hd Hhd) as (hd' & Hrun & Hkeys & Hgreens).
      exists hd'. split; [exact Hrun|]. split; [exact Hkeys|].
      intros c' [<-|Hc'] Hg'; [congruence | apply Hgreens; assumption].
Qed.

Lemma py_insert_spec (x : json) (l : list json) :
  match py_insert x l with
  | Ok s => (forall z, In z s <-> z = x \/ In z l) /\ length s = S (length l)
  | Raise e => e = TypeError
  end.
Proof.
  induction l as [|y l IH]; cbn [py_insert].
  - split; [|reflexivity]. intros z. cbn [In]. intuition congruence.
  - assert (match py_lt y x with Ok _ => True | Raise e => e = TypeError end) as Hlt.
    { unfold py_lt. destruct (num_of y), (num_of x); try exact I;
        destruct y; try reflexivity; destruct x; try reflexivity; exact I. }
    destruct (py_lt y x) as [[|]|e]; cbn [mbind result_bind]; [| |exact Hlt].
    + destruct (py_insert x l) as [r|e]; cbn [mbind result_bind]; [|exact IH].
      destruct IH as [Hmem Hlen]. split.
      * intros z. cbn [In]. rewrite Hmem. tauto.
      * cbn [length]. rewrite Hlen. reflexivity.
    + split; [|reflexivity]. intros z. cbn [In]. intuition congruence.
Qed.

Lemma py_sorted_spec (l : list json) :
  match py_sorted l with
  | Ok s => (forall z, In z s <-> In z l) /\ length s = length l
  | Raise e => e = TypeError
  end.
Proof.
  induction l as [|x l IH]; cbn [py_sorted]; [split; [tauto | reflexivity]|].
  destruct (py_sorted l) as [s|e]; cbn [mbind result_bind]; [|exact IH].
  destruct IH as [Hmem Hlen].
  pose proof (py_insert_spec x s) as Hins.
  destruct (py_insert x s) as [s'|e]; [|exact Hins].
  destruct Hins as [Hmem' Hlen']. split.
  - intros z. rewrite Hmem', Hmem. cbn [In]. intuition congruence.
  - rewrite Hlen', Hlen. reflexivity.
Qed.

Lemma py_lt_null (a b : json) (r : bool) :
  py_lt a b = Ok r -> a <> JNull /\ b <> JNull.
Proof.
  destruct a, b; try discriminate; intros _; split; discriminate.
Qed.

(** [sorted] accepts [None] only alone. *)
Lemma py_sorted_null (l s : list json) :
  py_sorted l = Ok s -> In JNull l -> (length l <= 1)%nat.
Proof.
  revert s. induction l as [|x l IH]; intros s; [intros _ []|].
  cbn [py_sorted].
  pose proof (py_sorted_spec l) as Hspec.
  destruct (py_sorted l) as [s0|] eqn:Es0; [|discriminate].
  cbn [mbind result_bind]. destruct Hspec as [Hmem Hlen].
  destruct s0 as [|y s0].
  - intros _ _. destruct l; [cbn; lia | discriminate Hlen].
  - cbn [py_insert]. destruct (py_lt y x) as [b|] eqn:Elt; [|discriminate].
    destruct (py_lt_null y x b Elt) as [Hy Hx]. intros _ [Hin|Hin]; [congruence|].
    specialize (IH (y :: s0) eq_refl Hin).
    destruct l as [|z [|z' l]]; [destruct Hin | | cbn in IH; lia].
    destruct Hin as [->|[]]. exfalso. apply Hy.
    destruct (proj1 (Hmem y) (or_introl eq_refl)) as [H|[]]. congruence.
Qed.

(** X28. An entry of a green without [hole] is listed under the hole
    [None], and [sorted] cannot compare [None] with a number: as soon as
    the payload also has a green with an integer hole,
    [extract_green_centers] raises [TypeError]. *)
Theorem extract_green_centers_missing_hole (d : list (string * json))
    (cs : list json) (c0 c1 : json) :
  dict_get "coordinates" d = Some (JArr cs) ->
  Forall (fun c => is_object c = true /\
                   (is_green c = true -> null_or_int (field "hole" c) = true)) cs ->
  In c0 cs -> is_green c0 = true -> field "hole" c0 = JNull ->
  In c1 cs -> is_green c1 = true -> is_int (field "hole" c1) = true ->
  extract_green_centers (JObj d) = Raise TypeError.
Proof.
  intros Hd Hcs Hin0 Hg0 Hh0 Hin1 Hg1 Hh1. unfold extract_green_centers.
  destruct d as [|kv d']; [discriminate|].
  cbn [py_truthy negb py_contains py_get mbind result_bind].
  rewrite Hd. rewrite bool_decide_eq_true_2 by eauto.
  cbn [default from_option id py_iter mbind result_bind negb].
  destruct (process_coords_keys cs [] Hcs) as (hd & -> & _ & Hkeys); [constructor|].
  cbn [mbind result_bind].
  pose proof (Hkeys c0 Hin0 Hg0) as Hnull. rewrite Hh0 in Hnull.
  pose proof (Hkeys c1 Hin1 Hg1) as Hint.
  destruct (field "hole" c1) as [| |n| | | |]; try discriminate.
  pose proof (py_sorted_spec (map fst hd)) as Hspec.
  destruct (py_sorted (map fst hd)) as [s|e] eqn:Es; [|subst e; reflexivity].
  exfalso. pose proof (py_sorted_null _ s Es Hnull) as Hlen.
  destruct (map fst hd) as [|k [|k' ks]]; [destruct Hnull | | cbn in Hlen; lia].
  destruct Hnull as [->|[]]. destruct Hint as [H|[]]. discriminate H.
Qed.

Lemma extract_green_centers_missing_hole_witness :
  extract_green_centers
    (JObj [("coordinates",
            JArr [JObj [("poi", JInt 1); ("location", JInt 2)];
                  JObj [("hole", JInt 3); ("poi", JInt 1); ("location", JInt 2)]])])
  = Raise TypeError.
Proof.
  apply (extract_green_centers_missing_hole
           [("coordinates",
             JArr [JObj [("poi", JInt 1); ("location", JInt 2)];
                   JObj [("hole", JInt 3); ("poi", JInt 1); ("location", JInt 2)]])]
           [JObj [("poi", JInt 1); ("location", JInt 2)];
            JObj [("hole", JInt 3); ("poi", JInt 1); ("location", JInt 2)]]
           (JObj [("poi", JInt 1); ("location", JInt 2)])
           (JObj [("hole", JInt 3); ("poi", JInt 1); ("location", JInt 2)]));
    try reflexivity.
  - repeat constructor.
  - left. reflexivity.
  - right. left. reflexivity.
Defined.

(** ** The course list *)

(** X29. The display name is that of the first course of the list whose
    [courseId] equals the id (a [courseName] that is present is taken as
    it is, even [null]); without such a course it is ['Unknown Course']. *)
Theorem lookup_course_name_first_match (before after : list json)
    (f : list (string * json)) (course_id : string) :
  Forall (fun x => is_object x = true /\
                   py_eq_str (field "courseId" x) course_id = false) before ->
  (py_eq_str (field "courseId" (JObj f)) course_id = true ->
   lookup_course_name (before ++ JObj f :: after) course_id
   = Ok (default (JStr "Unknown Course") (dict_get "courseName" f)))
  /\ lookup_course_name before course_id = Ok (JStr "Unknown Course").
Proof.
  induction 1 as [|x before [Hobj Hid] _ [IH1 IH2]].
  - split; [|reflexivity]. intros Hmatch. cbn [app lookup_course_name py_get field] in *.
    cbn [mbind result_bind]. rewrite Hmatch. reflexivity.
  - destruct x as [| | | | | |fx]; try discriminate.
    cbn [app lookup_course_name py_get field mbind result_bind] in *.
    rewrite Hid. split; assumption.
Qed.

Lemma lookup_course_name_first_match_witness :
  lookup_course_name
    ([JObj [("courseId", JStr "A1"); ("courseName", JStr "Augusta")]]
     ++ JObj [("courseId", JStr "X1"); ("courseName", JStr "Pebble Beach")]
     :: [JObj [("courseId", JStr "X1"); ("courseName", JStr "Other")]]) "X1"
  = Ok (JStr "Pebble Beach").
Proof.
  apply (lookup_course_name_first_match
           [JObj [("courseId", JStr "A1"); ("courseName", JStr "Augusta")]]
           [JObj [("courseId", JStr "X1"); ("courseName", JStr "Other")]]
           [("courseId", JStr "X1"); ("courseName", JStr "Pebble Beach")] "X1").
  - repeat constructor.
  - reflexivity.
Defined.

(** X30. When the scan of the course list raises (an item that is not an
    object comes before the match), the request answers 500 although the
    provider was called and the payload is already written; nothing is
    notified. *)
Theorem bad_course_list_fails_after_write (pf : platform) (w : world) (k : kind)
    (course_id : string) (db : database) (log : list event) (text : string)
    (d : list (string * json)) :
  db_fault w Connect = None ->
  db_fault w Select = None ->
  db_fault w Insert = None ->
  rows (cache_table k) db !! cache_key k course_id = None ->
  (k = coordinates -> configured (getenv w "GOLF_API_TOKEN") = true) ->
  upstream w = HttpResponse 200 text (Ok (JObj d)) ->
  lookup_course_name (COURSES w) course_id = Raise AttributeError ->
  exists url authorization,
    let param := JStr (json_dumps pf (JObj d)) in
    let t := cache_table k in
    let key := cache_key k course_id in
    let db' := concurrent w db in
    resolve pf w k course_id (db, log)
    = (Ok (error_response pf AttributeError),
       (set_rows t (<[key := resolver_row pf param (now w) (rows t db') key]>
                      (rows t db')) db',
        (log ++ [Fetched url authorization; Wrote t key param])%list)).
Proof.
  intros Hc Hs Hi Hrow Htoken Hup Hname.
  destruct k; run; rewrite Hc, Hs; revert Hrow; run; intros ->;
    cbv [fmap option_fmap option_map]; [rewrite (Htoken eq_refl); cbv [negb]|];
    rewrite Hup; cbv [Z.eqb Pos.eqb py_get]; rewrite Hi, Hname;
    rewrite <- !app_assoc; cbn [app];
    unfold resolver_row, set_value;
    do 2 eexists; f_equal; f_equal; f_equal; f_equal;
    match goal with
    | |- context [match ?x with Some _ => _ | None => _ end] => destruct x
    end; reflexivity.
Qed.

Lemma bad_course_list_fails_after_write_witness :
  let w := {| environ := ∅; COURSES := [JStr "courses"]; now := 2;
              upstream := HttpResponse 200 "sample_payload" (Ok sample_payload);
              db_fault := fun _ => None; smtp_fault := None;
              concurrent := fun db => db |} in
  exists url authorization,
    resolve sample_platform w info "X1" (empty_db, [])
    = (Ok (error_response sample_platform AttributeError),
       ({| poi_rows := ∅;
           info_rows := {[ "info_X1" := Row (JStr "sample_payload") 2 ]} |},
        [Fetched url authorization;
         Wrote course_info_cache "info_X1" (JStr "sample_payload")])).
Proof.
  intros w.
  destruct (bad_course_list_fails_after_write sample_platform w info "X1" empty_db []
              "sample_payload"
              [("courseID", JStr "X1");
               ("coordinates",
                JArr [JObj [("hole", JInt 1); ("poi", JInt 1); ("location", JInt 2);
                            ("latitude", JFloat (10 # 1));
                            ("longitude", JFloat (20 # 1))]]);
               ("apiRequestsLeft", JStr "42")])
    as (url & authorization & H); try reflexivity; [discriminate|].
  exists url, authorization. exact H.
Defined.
